(** * train_model.py: the [TrainModels] orchestration class

    A shallow embedding of [src/train_model.py].  The class drives
    scikit-learn, Keras and numpy; what those libraries compute numerically
    (TF-IDF weights, linear-model fitting, cross-validation scores, network
    training) is kept abstract behind the interface [MLLib], while everything
    the script itself decides, and the combinatorial behaviour of the library
    calls it relies on (dictionary order, [max], the size rule of
    [train_test_split], [accuracy_score], [LabelEncoder], [to_categorical],
    the candidate enumeration of [GridSearchCV]), is written out.

    Conventions.
    - A Python [dict] is an association list in insertion order.
    - A Python float is [pyfloat]: a rational, or NaN.  Accuracies are
      quotients of two counts, so no rounding is involved in what is proved.
    - Exceptions are values of [exn]; a computation that raises returns
      [Raise e].  Methods of the class are computations in the monad [M]
      over the [world]: the object's attributes, the store of estimator
      objects (classifiers are shared by reference), and numpy's global
      random state.
    - [print] calls and wall-clock timings are left out. *)

From Stdlib Require Import QArith Qround Qabs.
From stdpp Require Import base option list strings gmap sorting.

(** ** Python values *)

Module Py.

(** Exceptions raised by the script or propagated from a library. *)
Inductive exn : Type :=
| ValueError
| KeyError (key : string)
| IndexError
| NotFittedError
| LibraryError (msg : string).

Inductive result (A : Type) : Type :=
| Ok (a : A)
| Raise (e : exn).
Global Arguments Ok {A} a.
Global Arguments Raise {A} e.

Global Instance result_ret : MRet result := @Ok.
Global Instance result_bind : MBind result := λ A B f r,
  match r with Ok a => f a | Raise e => Raise e end.

(** A float: NaN, or a finite value (kept exact). *)
Inductive pyfloat : Type :=
| NaN
| Fin (q : Q).

(** [a > b] and [a >= b] on floats; any comparison with NaN is false. *)
Definition float_gt (a b : pyfloat) : bool :=
  match a, b with
  | Fin x, Fin y => negb (Qle_bool x y)
  | _, _ => false
  end.

Definition float_ge (a b : pyfloat) : bool :=
  match a, b with
  | Fin x, Fin y => Qle_bool y x
  | _, _ => false
  end.

Definition float_finite (a : pyfloat) : Prop := ∃ q, a = Fin q.

(** [a <= b] and [a == b] as propositions on finite floats. *)
Definition float_le (a b : pyfloat) : Prop :=
  match a, b with
  | Fin x, Fin y => (x <= y)%Q
  | _, _ => False
  end.

Definition float_lt (a b : pyfloat) : Prop :=
  match a, b with
  | Fin x, Fin y => (x < y)%Q
  | _, _ => False
  end.

Definition float_eq (a b : pyfloat) : Prop :=
  match a, b with
  | Fin x, Fin y => (x == y)%Q
  | _, _ => False
  end.

(** The values a keyword argument such as [stop_words] takes here. *)
Inductive pyval : Type :=
| PNone
| PStr (s : string).

Global Instance pyval_eq_dec : EqDecision pyval.
Proof. solve_decision. Defined.

(** A [dict] with string keys, in insertion order. *)
Definition dict (V : Type) : Type := list (string * V).

(** [d.items()] *)
Definition items {V} (d : dict V) : list (string * V) := d.

(** [d.get(key)]: [None] when the key is absent. *)
Fixpoint get {V} (d : dict V) (key : string) : option V :=
  match d with
  | [] => None
  | (k, v) :: d' => if decide (k = key) then Some v else get d' key
  end.

(** [d[key]]: raises [KeyError] when the key is absent. *)
Definition getitem {V} (d : dict V) (key : string) : result V :=
  match get d key with
  | Some v => Ok v
  | None => Raise (KeyError key)
  end.

(** [d[key] = v]: overwrite in place, or append a new entry. *)
Fixpoint setitem {V} (d : dict V) (key : string) (v : V) : dict V :=
  match d with
  | [] => [(key, v)]
  | (k, v') :: d' =>
      if decide (k = key) then (k, v) :: d' else (k, v') :: setitem d' key v
  end.

(** [max(iterable, key=key)]: the running maximum is replaced only by a
    strictly greater element, so the first maximal element wins; an empty
    iterable raises [ValueError]. *)
Fixpoint max_from {A} (key : A → pyfloat) (best : A) (rest : list A) : A :=
  match rest with
  | [] => best
  | x :: rest' =>
      max_from key (if float_gt (key x) (key best) then x else best) rest'
  end.

Definition max {A} (key : A → pyfloat) (l : list A) : result A :=
  match l with
  | [] => Raise ValueError
  | x :: rest => Ok (max_from key x rest)
  end.

(** [operator.itemgetter(1)] and [item[0]] on a (key, value) pair. *)
Definition itemgetter_1 {A B} (item : A * B) : B := item.2.
Definition item_0 {A B} (item : A * B) : A := item.1.

End Py.
Import Py.

(** ** [TrainModels.__get_best_score] (lines 117-126) *)

Definition __get_best_score (scores : dict pyfloat) : result string :=
  item ← Py.max itemgetter_1 (items scores);
  mret (item_0 item).

(** ** The data set *)

(** A record of the data frame: the columns [text] and [gender]. *)
Record row : Type := Row { text : string; gender : string }.

(** A [pandas.DataFrame], as its rows in order. *)
Abbreviation DataFrame := (list row).

(** [frame.text] and [frame.gender], and positional selection [iloc]
    (only ever applied to positions inside the frame). *)
Definition text_col (frame : DataFrame) : list string := text <$> frame.
Definition gender_col (frame : DataFrame) : list string := gender <$> frame.
Definition iloc (frame : DataFrame) (positions : list nat) : DataFrame :=
  omap (λ i, frame !! i) positions.

(** ** Library objects whose configuration the script chooses *)

(** [TfidfVectorizer(stop_words=...)] before fitting. *)
Record TfidfVectorizer : Type := { stop_words : pyval }.

(** The two classical estimators of the registry. *)
Inductive clf_class : Type := SGDClassifier | Perceptron.

(** A [keras.layers.Dense] layer as the script configures it. *)
Record Dense : Type :=
  { output_dim : nat; init : string; activation : string;
    input_dim : option nat }.

(** [Tokenizer.texts_to_matrix] modes and the scorer names used. *)
Definition mode_count : string := "count".
Definition accuracy : string := "accuracy".

(** ** The numeric part of the libraries

    Types and operations the script treats as black boxes.  Operations that
    draw random numbers take and return numpy's random state. *)
Class MLLib : Type :=
  { (** numpy's global [RandomState] *)
    rng : Type;
    (** scipy sparse feature matrix *)
    sparse : Type;
    (** fitted state of a TF-IDF vectorizer (vocabulary and idf weights) *)
    tfidf_state : Type;
    (** fitted coefficients of a linear classifier *)
    coef : Type;
    (** dense numpy matrix of token counts *)
    ndarray : Type;
    (** word index of a fitted Keras tokenizer *)
    word_index : Type;
    (** trained weights of a Keras network *)
    net_weights : Type;

    (** [numpy.random.seed(n)] *)
    np_seed : nat → rng;
    (** [rng.permutation(n)], as drawn by [ShuffleSplit] *)
    np_permutation : rng → nat → list nat * rng;
    np_permutation_perm g n : (np_permutation g n).1 ≡ₚ seq 0 n;

    (** [vectorizer.fit_transform(texts)] and [vectorizer.transform(texts)] *)
    tfidf_fit_transform :
      TfidfVectorizer → list string → result (tfidf_state * sparse);
    tfidf_transform : tfidf_state → list string → result sparse;

    (** [clf.fit(X, y)] computes new coefficients; [clf.predict(X)] *)
    clf_fit :
      clf_class → sparse → list string → rng → result coef * rng;
    clf_predict : coef → sparse → result (list string);

    (** mean cross-validated score of the pipeline (vectorizer, classifier)
        under the named scorer, as [GridSearchCV] computes per candidate *)
    cross_val_mean :
      string → TfidfVectorizer → clf_class → list string → list string →
      rng → result pyfloat * rng;

    (** [tokenizer.fit_on_texts] and [tokenizer.texts_to_matrix] *)
    tokenizer_fit : list string → word_index;
    tokenizer_matrix :
      option nat → word_index → list string → string → result ndarray;

    (** [model.fit(x, y, epochs=n)] and the values [model.evaluate] returns:
        the loss, then one value per compiled metric *)
    keras_fit :
      list Dense → string → string → ndarray → list (list Q) → nat →
      rng → result net_weights * rng;
    keras_eval_loss :
      list Dense → string → net_weights → ndarray → list (list Q) → pyfloat;
    keras_eval_metric :
      string → list Dense → net_weights → ndarray → list (list Q) → pyfloat }.

(** ** Library calls with a combinatorial meaning *)

Module sklearn.

(** [ceil(test_size * n_samples)] *)
Definition n_test_of (test_size : Q) (n_samples : nat) : nat :=
  Z.to_nat (Qceiling (test_size * inject_Z (Z.of_nat n_samples))).

(** [train_test_split(frame, test_size=...)]: [n_test] is the ceiling of
    the requested fraction, the train set takes the remaining rows and must
    not be empty; the rows are drawn from one random permutation, the test
    rows first. *)
Definition train_test_split `{MLLib} (frame : DataFrame) (test_size : Q)
    (g : rng) : result (DataFrame * DataFrame) * rng :=
  let n_samples := length frame in
  let n_test := n_test_of test_size n_samples in
  let n_train := n_samples - n_test in
  if decide (n_train = 0) then (Raise ValueError, g)
  else
    let '(permutation, g') := np_permutation g n_samples in
    let ind_test := take n_test permutation in
    let ind_train := take n_train (drop n_test permutation) in
    (Ok (iloc frame ind_train, iloc frame ind_test), g').

(** [metrics.accuracy_score(y_true, y_pred)]: the fraction of positions
    where the labels agree; inconsistent lengths raise, and the mean over
    no samples is NaN. *)
Definition correct (y_true y_pred : list string) : nat :=
  length (filter (λ p, p.1 = p.2) (zip y_true y_pred)).

Definition accuracy_score (y_true y_pred : list string) : result pyfloat :=
  if decide (length y_true = length y_pred) then
    match length y_true with
    | 0 => Ok NaN
    | S _ =>
        Ok (Fin (Z.of_nat (correct y_true y_pred)
                 # Pos.of_nat (length y_true)))
    end
  else Raise ValueError.

(** [LabelEncoder]: [classes_] is the sorted list of distinct labels;
    [transform] maps a label to its position and rejects unseen labels. *)
Record LabelEncoder : Type := { classes_ : option (list string) }.

Fixpoint insert_sorted (s : string) (l : list string) : list string :=
  match l with
  | [] => [s]
  | x :: l' =>
      match String.compare s x with
      | Lt => s :: l
      | Eq => l
      | Gt => x :: insert_sorted s l'
      end
  end.

Definition np_unique (labels : list string) : list string :=
  foldr insert_sorted [] labels.

Definition LabelEncoder_fit (labels : list string) : LabelEncoder :=
  {| classes_ := Some (np_unique labels) |}.

Fixpoint index_of (s : string) (l : list string) : option nat :=
  match l with
  | [] => None
  | x :: l' => if decide (x = s) then Some 0 else S <$> index_of s l'
  end.

Definition LabelEncoder_transform (enc : LabelEncoder)
    (labels : list string) : result (list nat) :=
  match classes_ enc with
  | None => Raise NotFittedError
  | Some classes =>
      mapM (λ s, match index_of s classes with
                 | Some c => Ok c
                 | None => Raise ValueError
                 end) labels
  end.

(** [ParameterGrid(param_grid)]: every assignment of one listed value to
    each key. *)
Fixpoint ParameterGrid (param_grid : dict (list pyval))
    : list (dict pyval) :=
  match param_grid with
  | [] => [[]]
  | (k, values) :: rest =>
      v ← values; params ← ParameterGrid rest; [(k, v) :: params]
  end.

(** [Pipeline.set_params] on the pipeline [('vect', ...), ('clf', ...)]:
    [vect__stop_words] sets the vectorizer's stop words; no other
    parameter is ever passed. *)
Fixpoint set_params (vect : TfidfVectorizer) (params : dict pyval)
    : result TfidfVectorizer :=
  match params with
  | [] => Ok vect
  | (k, v) :: rest =>
      if decide (k = "vect__stop_words") then
        set_params {| stop_words := v |} rest
      else Raise ValueError
  end.

(** Candidate ranking of [GridSearchCV]: a higher mean score is better,
    NaN ranks last, and among equals the earlier candidate wins. *)
Definition better (a b : pyfloat) : bool :=
  match a, b with
  | Fin x, Fin y => negb (Qle_bool x y)
  | Fin _, NaN => true
  | NaN, _ => false
  end.

Fixpoint best_from {A} (best : A * pyfloat) (rest : list (A * pyfloat))
    : A * pyfloat :=
  match rest with
  | [] => best
  | c :: rest' => best_from (if better c.2 best.2 then c else best) rest'
  end.

End sklearn.

Module keras.

(** [keras.utils.to_categorical(y, num_classes)]: row [i] is zero except
    for a one in column [y[i]]; a class index outside the row raises. *)
Definition one_hot (num_classes c : nat) : list Q :=
  (λ j, if decide (j = c) then 1%Q else 0%Q) <$> seq 0 num_classes.

Definition to_categorical (y : list nat) (num_classes : nat)
    : result (list (list Q)) :=
  mapM (λ c, if decide (c < num_classes) then Ok (one_hot num_classes c)
             else Raise IndexError) y.

(** [Tokenizer(num_words=...)], then fitted by [fit_on_texts]. *)
Record Tokenizer `{MLLib} : Type :=
  { num_words : option nat; fitted_index : option word_index }.

(** A [Sequential] model: its layers, what [compile] set, and the weights
    once [fit] has run. *)
Record Sequential `{MLLib} : Type :=
  { layers : list Dense;
    loss : option string;
    optimizer : option string;
    metrics : list string;
    weights : option net_weights }.

End keras.

(** ** The world the methods run in *)

Section TrainModels.
Context `{MLLib}.

(** References to estimator objects. *)
Definition loc : Type := nat.

(** A scikit-learn classifier object: its class, and the coefficients its
    last [fit] left (none for a new object). *)
Record estimator : Type :=
  { est_class : clf_class; coef_ : option coef }.

(** The attributes of a [TrainModels] object. *)
Record TrainModels : Type :=
  { df : DataFrame;
    train : DataFrame;
    test : DataFrame;
    __clfs : dict loc;
    X_train : sparse;
    X_test : sparse;
    Y_train : list string;
    Y_test : list string;
    tokenizer : option keras.Tokenizer;
    lb_make : option sklearn.LabelEncoder }.

Record world : Type :=
  { self : TrainModels;
    heap : gmap loc estimator;
    np_random : rng }.

(** Computations that read and write the world and may raise. *)
Definition M (A : Type) : Type := world → result A * world.

Global Instance M_ret : MRet M := λ A a w, (Ok a, w).
Global Instance M_bind : MBind M := λ A B f m w,
  match m w with
  | (Ok a, w') => f a w'
  | (Raise e, w') => (Raise e, w')
  end.

Definition lift {A} (r : result A) : M A := λ w, (r, w).

(** [self.field] *)
Definition attr {A} (field : TrainModels → A) : M A :=
  λ w, (Ok (field (self w)), w).

(** A library call that draws from numpy's random state. *)
Definition random {A} (op : rng → result A * rng) : M A :=
  λ w, let '(r, g) := op (np_random w) in
       (r, {| self := self w; heap := heap w; np_random := g |}).

(** Reading and updating the object a reference points to. *)
Definition deref (l : loc) : M estimator :=
  λ w, match heap w !! l with
       | Some est => (Ok est, w)
       | None => (Raise (LibraryError "invalid reference"), w)
       end.

Definition store (l : loc) (est : estimator) : M unit :=
  λ w, (Ok (), {| self := self w; heap := <[l := est]> (heap w);
                  np_random := np_random w |}).

(** [self.lb_make = v] and [self.tokenizer = v] *)
Definition set_lb_make (v : option sklearn.LabelEncoder) : M unit :=
  λ w, let s := self w in
       (Ok (), {| self := {| df := df s; train := train s; test := test s;
                             __clfs := __clfs s; X_train := X_train s;
                             X_test := X_test s; Y_train := Y_train s;
                             Y_test := Y_test s; tokenizer := tokenizer s;
                             lb_make := v |};
                  heap := heap w; np_random := np_random w |}).

Definition set_tokenizer (v : option keras.Tokenizer) : M unit :=
  λ w, let s := self w in
       (Ok (), {| self := {| df := df s; train := train s; test := test s;
                             __clfs := __clfs s; X_train := X_train s;
                             X_test := X_test s; Y_train := Y_train s;
                             Y_test := Y_test s; tokenizer := v;
                             lb_make := lb_make s |};
                  heap := heap w; np_random := np_random w |}).

(** *** Estimator methods *)

(** [clf.fit(X, y)]: fits from scratch and stores the new coefficients in
    the object [clf] refers to. *)
Definition fit (clf : loc) (X : sparse) (y : list string) : M unit :=
  est ← deref clf;
  c ← random (clf_fit (est_class est) X y);
  store clf {| est_class := est_class est; coef_ := Some c |}.

(** [clf.predict(X)]: needs a fitted object. *)
Definition predict (clf : loc) (X : sparse) : M (list string) :=
  est ← deref clf;
  match coef_ est with
  | None => lift (Raise NotFittedError)
  | Some c => lift (clf_predict c X)
  end.

(** *** [GridSearchCV] *)

Record GridSearchCV : Type :=
  { best_params_ : dict pyval; best_score_ : pyfloat }.

(** [GridSearchCV(Pipeline([('vect', vect), ('clf', clf)]), param_grid,
    scoring=scoring).fit(X, y)].  The search works on clones of the
    pipeline, so the object [clf] refers to is only read; every candidate
    of the grid gets a mean cross-validated score, the best one is kept,
    and (refit) a clone with the best parameters is fitted on all of
    [X], [y]. *)
Definition GridSearchCV_fit (vect : TfidfVectorizer) (clf : loc)
    (param_grid : dict (list pyval)) (scoring : string)
    (X y : list string) : M GridSearchCV :=
  est ← deref clf;
  results ← mapM (λ params,
      v ← lift (sklearn.set_params vect params);
      score ← random (cross_val_mean scoring v (est_class est) X y);
      mret (params, score)) (sklearn.ParameterGrid param_grid);
  match results with
  | [] => lift (Raise ValueError)
  | c :: rest =>
      let best := sklearn.best_from c rest in
      v ← lift (sklearn.set_params vect best.1);
      '(_, X_all) ← lift (tfidf_fit_transform v X);
      _ ← random (clf_fit (est_class est) X_all y);
      mret {| best_params_ := best.1; best_score_ := best.2 |}
  end.

(** *** Keras model methods *)

Definition Sequential_new : keras.Sequential :=
  {| keras.layers := []; keras.loss := None; keras.optimizer := None;
     keras.metrics := []; keras.weights := None |}.

(** [model.add(layer)] *)
Definition add (model : keras.Sequential) (layer : Dense)
    : keras.Sequential :=
  {| keras.layers := keras.layers model ++ [layer];
     keras.loss := keras.loss model;
     keras.optimizer := keras.optimizer model;
     keras.metrics := keras.metrics model;
     keras.weights := keras.weights model |}.

(** [model.compile(loss=..., optimizer=..., metrics=...)] *)
Definition compile (model : keras.Sequential) (loss optimizer : string)
    (metrics : list string) : keras.Sequential :=
  {| keras.layers := keras.layers model;
     keras.loss := Some loss;
     keras.optimizer := Some optimizer;
     keras.metrics := metrics;
     keras.weights := keras.weights model |}.

(** [model.fit(x, y, epochs=epochs)]: needs a compiled model. *)
Definition Sequential_fit (model : keras.Sequential) (x : ndarray)
    (y : list (list Q)) (epochs : nat) : M keras.Sequential :=
  match keras.loss model, keras.optimizer model with
  | Some loss, Some optimizer =>
      wts ← random (keras_fit (keras.layers model) loss optimizer x y
                      epochs);
      mret {| keras.layers := keras.layers model;
              keras.loss := keras.loss model;
              keras.optimizer := keras.optimizer model;
              keras.metrics := keras.metrics model;
              keras.weights := Some wts |}
  | _, _ => lift (Raise (LibraryError "compile the model first"))
  end.

(** [model.evaluate(x, y, verbose=0)]: the loss followed by the compiled
    metrics. *)
Definition evaluate (model : keras.Sequential) (x : ndarray)
    (y : list (list Q)) : result (list pyfloat) :=
  match keras.loss model, keras.weights model with
  | Some loss, Some wts =>
      Ok (keras_eval_loss (keras.layers model) loss wts x y
          :: ((λ m, keras_eval_metric m (keras.layers model) wts x y)
                <$> keras.metrics model))
  | _, _ => Raise (LibraryError "compile and fit the model first")
  end.

(** [tokenizer.fit_on_texts(texts)] and
    [tokenizer.texts_to_matrix(texts, mode=mode)] *)
Definition fit_on_texts (tok : keras.Tokenizer) (texts : list string)
    : keras.Tokenizer :=
  {| keras.num_words := keras.num_words tok;
     keras.fitted_index := Some (tokenizer_fit texts) |}.

Definition texts_to_matrix (tok : keras.Tokenizer) (texts : list string)
    (mode : string) : result ndarray :=
  match keras.fitted_index tok with
  | Some index => tokenizer_matrix (keras.num_words tok) index texts mode
  | None =>
      match keras.num_words tok with
      | Some _ => tokenizer_matrix (keras.num_words tok)
                    (tokenizer_fit []) texts mode
      | None => Raise ValueError
      end
  end.

(** [l[i]] on a Python list. *)
Definition list_getitem {A} (l : list A) (i : nat) : result A :=
  match l !! i with
  | Some x => Ok x
  | None => Raise IndexError
  end.

(** *** Methods of [TrainModels] *)

(** The model [train_models] hands back: the selected classical
    classifier (a reference into the registry) or the Keras network. *)
Inductive model : Type :=
| ClassicalModel (clf : loc)
| KerasModel (net : keras.Sequential).

(** [__tf_idf_feature_extraction] (lines 28-42).  It runs inside the
    constructor, when [self.train] and [self.test] are the only
    attributes it reads; they are its arguments here. *)
Definition __tf_idf_feature_extraction (train test : DataFrame)
    : result (sparse * sparse) :=
  let vectorizer := {| stop_words := PNone |} in
  '(vectorizer, vec_train) ←
    tfidf_fit_transform vectorizer (text_col train);
  vec_test ← tfidf_transform vectorizer (text_col test);
  mret (vec_train, vec_test).

(** [__init__] (lines 18-26), run with the estimator store [h] and the
    random state [g] it finds.  The float [0.2] times a row count has the
    same ceiling as the exact fifth for every count below 2^49. *)
Definition __init__ (data_frame : DataFrame) (h : gmap loc estimator)
    (g : rng) : result world :=
  let '(split, g) := sklearn.train_test_split data_frame (2 # 10) g in
  '(train, test) ← split;
  let svm := fresh (dom h) in
  let h := <[svm := {| est_class := SGDClassifier; coef_ := None |}]> h in
  let perceptron := fresh (dom h) in
  let h :=
    <[perceptron := {| est_class := Perceptron; coef_ := None |}]> h in
  let clfs := [("SVM", svm); ("Perceptron", perceptron)] in
  '(X_train, X_test) ← __tf_idf_feature_extraction train test;
  let g := np_seed 7 in
  mret {| self := {| df := data_frame; train := train; test := test;
                     __clfs := clfs; X_train := X_train; X_test := X_test;
                     Y_train := gender_col train;
                     Y_test := gender_col test;
                     tokenizer := None; lb_make := None |};
          heap := h; np_random := g |}.

(** [__benchmark] (lines 44-66) *)
Definition __benchmark (clf : loc) : M pyfloat :=
  X_train ← attr X_train;
  Y_train ← attr Y_train;
  fit clf X_train Y_train;;
  X_test ← attr X_test;
  pred ← predict clf X_test;
  Y_test ← attr Y_test;
  score ← lift (sklearn.accuracy_score Y_test pred);
  mret score.

(** [optimize] (lines 128-143) *)
Definition optimize (best_func : loc) : M (dict pyval) :=
  let parameters := [("vect__stop_words", [PNone; PStr "english"])] in
  train ← attr train;
  gs_clf ← GridSearchCV_fit {| stop_words := PNone |} best_func
             parameters accuracy (text_col train) (gender_col train);
  mret (best_params_ gs_clf).

(** [__run_best_model] (lines 87-115).  [best_params.get(key)] is [None]
    when the key is absent. *)
Definition __run_best_model (best_params : dict pyval)
    (best_clf : string) : M (pyfloat * loc) :=
  let tf_idf :=
    {| stop_words :=
         default PNone (Py.get best_params "vect__stop_words") |} in
  train_frame ← attr train;
  test_frame ← attr test;
  '(tf_idf, train) ← lift (tfidf_fit_transform tf_idf (text_col train_frame));
  test ← lift (tfidf_transform tf_idf (text_col test_frame));
  clfs ← attr __clfs;
  clf_func ← lift (getitem clfs best_clf);
  fit clf_func train (gender_col train_frame);;
  pred ← predict clf_func test;
  score ← lift (sklearn.accuracy_score (gender_col test_frame) pred);
  mret (score, clf_func).

(** [build_matrix] (lines 161-179) *)
Definition build_matrix
    : M (ndarray * ndarray * list (list Q) * list (list Q)) :=
  Y_train ← attr Y_train;
  let lb_make := sklearn.LabelEncoder_fit Y_train in
  set_lb_make (Some lb_make);;
  let tokenizer :=
    {| keras.num_words := Some 2000; keras.fitted_index := None |} in
  train ← attr train;
  test ← attr test;
  let x_array_train := text_col train in
  let x_array_test := text_col test in
  let tokenizer := fit_on_texts tokenizer x_array_train in
  x_train_matrix ← lift (texts_to_matrix tokenizer x_array_train mode_count);
  x_test_matrix ← lift (texts_to_matrix tokenizer x_array_test mode_count);
  y_train_numbers ← lift (sklearn.LabelEncoder_transform lb_make Y_train);
  Y_test ← attr Y_test;
  y_test_numbers ← lift (sklearn.LabelEncoder_transform lb_make Y_test);
  y_train_matrix ← lift (keras.to_categorical y_train_numbers 3);
  y_test_matrix ← lift (keras.to_categorical y_test_numbers 3);
  set_tokenizer (Some tokenizer);;
  mret (x_train_matrix, x_test_matrix, y_train_matrix, y_test_matrix).

(** [train_sequential] (lines 145-159) *)
Definition train_sequential : M (keras.Sequential * pyfloat) :=
  '(x_train, x_test, y_train, y_test) ← build_matrix;
  let model := Sequential_new in
  let model :=
    add model {| output_dim := 6; init := "uniform"; activation := "relu";
                 input_dim := Some 2000 |} in
  let model :=
    add model {| output_dim := 6; init := "uniform"; activation := "relu";
                 input_dim := None |} in
  let model :=
    add model {| output_dim := 3; init := "uniform";
                 activation := "sigmoid"; input_dim := None |} in
  let model := compile model "binary_crossentropy" "adam" [accuracy] in
  model ← Sequential_fit model x_train y_train 5;
  keras_score ← lift (evaluate model x_test y_test);
  keras_score_1 ← lift (list_getitem keras_score 1);
  mret (model, keras_score_1).

(** The loop of [train_models] (lines 73-77): benchmark every registered
    classifier, in the registry's order, and record its score. *)
Fixpoint benchmark_all (registry : list (string * loc))
    (scores : dict pyfloat) : M (dict pyfloat) :=
  match registry with
  | [] => mret scores
  | (name, clf) :: registry' =>
      score ← __benchmark clf;
      benchmark_all registry' (setitem scores name score)
  end.

(** [train_models] (lines 68-85) *)
Definition train_models : M model :=
  clfs ← attr __clfs;
  scores ← benchmark_all (items clfs) [];
  best ← lift (__get_best_score scores);
  clfs ← attr __clfs;
  best_func ← lift (getitem clfs best);
  best_params ← optimize best_func;
  '(simple_score, simple_model) ← __run_best_model best_params best;
  '(keras_model, keras_score) ← train_sequential;
  if float_ge keras_score simple_score then mret (KerasModel keras_model)
  else mret (ClassicalModel simple_model).

End TrainModels.

(** ** What is observed of a world *)

Section observations.
Context `{MLLib}.

(** [keeps R m] says that the world after [m], whether it returns or
    raises, is related by [R] to the world before. *)
Definition keeps (R : relation world) {A} (m : M A) : Prop :=
  ∀ w, R w (m w).2.

(** The attributes fixed by the constructor: the data frame, its two
    partitions, the registry, and the benchmark features and labels. *)
Definition fixed_attributes (s : TrainModels) :=
  (df s, train s, test s, __clfs s, X_train s, X_test s, Y_train s,
   Y_test s).

Definition same_data (w w' : world) : Prop :=
  fixed_attributes (self w') = fixed_attributes (self w).

(** The store of estimator objects is untouched. *)
Definition same_heap (w w' : world) : Prop := heap w' = heap w.

(** Every estimator object other than [l] is untouched. *)
Definition same_heap_but (l : loc) (w w' : world) : Prop :=
  ∀ l', l' ≠ l → heap w' !! l' = heap w !! l'.

(** A classifier object is fitted once a [fit] has left it coefficients;
    [stays_fitted] says that fitted objects of the first world are still
    there, and fitted, in the second. *)
Definition is_fitted (est : estimator) : Prop := is_Some (coef_ est).

Definition stays_fitted (w w' : world) : Prop :=
  ∀ l est, heap w !! l = Some est → is_fitted est →
           ∃ est', heap w' !! l = Some est' ∧ is_fitted est'.

(** An entry of the score mapping holding a number between 0 and 1. *)
Definition unit_score (item : string * pyfloat) : Prop :=
  ∃ q, item.2 = Fin q ∧ (0 <= q)%Q ∧ (q <= 1)%Q.

(** The methods of the class, as calls with their arguments. *)
Inductive method : Type :=
| call_tf_idf_feature_extraction
| call_benchmark (clf : loc)
| call_get_best_score (scores : dict pyfloat)
| call_optimize (best_func : loc)
| call_run_best_model (best_params : dict pyval) (best_clf : string)
| call_build_matrix
| call_train_sequential
| call_train_models.

(** The world a call leaves behind, whether it returns or raises.  The
    feature extraction and the static model selection write nothing. *)
Definition after (m : method) (w : world) : world :=
  match m with
  | call_tf_idf_feature_extraction => w
  | call_benchmark clf => (__benchmark clf w).2
  | call_get_best_score _ => w
  | call_optimize best_func => (optimize best_func w).2
  | call_run_best_model best_params best_clf =>
      (__run_best_model best_params best_clf w).2
  | call_build_matrix => (build_matrix w).2
  | call_train_sequential => (train_sequential w).2
  | call_train_models => (train_models w).2
  end.

Definition after_all (ms : list method) (w : world) : world :=
  foldl (λ w m, after m w) w ms.

(** The registry as a reader sees it: each name with the state of the
    classifier object it refers to. *)
Definition registry (w : world) : list (string * option estimator) :=
  (λ entry, (entry.1, heap w !! entry.2)) <$> items (__clfs (self w)).

(** The tokenizer [build_matrix] leaves in [self.tokenizer]: capped at
    2000 words and fitted on the training texts. *)
Definition train_tokenizer (w : world) : keras.Tokenizer :=
  {| keras.num_words := Some 2000;
     keras.fitted_index :=
       Some (tokenizer_fit (text_col (train (self w)))) |}.

(** The network [train_sequential] assembles. *)
Definition network_layers : list Dense :=
  [ {| output_dim := 6; init := "uniform"; activation := "relu";
       input_dim := Some 2000 |};
    {| output_dim := 6; init := "uniform"; activation := "relu";
       input_dim := None |};
    {| output_dim := 3; init := "uniform"; activation := "sigmoid";
       input_dim := None |} ].

End observations.

(** Modelled from the spec: the decoding of a one-hot vector.  The source
    only encodes ([keras.utils.to_categorical] in [build_matrix]); the
    glossary describes the vector as having a single 1 at the label's
    index, so decoding returns the index of the first largest entry, as
    [numpy.argmax] does, and fails on an empty vector. *)
Fixpoint argmax_from (best_i : nat) (best : Q) (i : nat) (rest : list Q)
    : nat :=
  match rest with
  | [] => best_i
  | x :: rest' =>
      if Qle_bool x best then argmax_from best_i best (S i) rest'
      else argmax_from i x (S i) rest'
  end.

Definition decode_one_hot (v : list Q) : result nat :=
  match v with
  | [] => Raise ValueError
  | x :: rest => Ok (argmax_from 0 x 1 rest)
  end.

(** ** A small concrete library

    An instance of [MLLib] on which the model runs by computation: the
    shuffle is the identity, a feature matrix is the list of documents, a
    classifier memorises its training pairs and predicts by exact lookup,
    and the network reports the accuracy it is told to.  It serves to run
    the methods on concrete data frames. *)
Module Toy.

Definition fit_memo (cls : clf_class) (X : list string) (y : list string)
    (g : nat) : result (dict string) * nat :=
  match X with
  | [] => (Raise ValueError, g)
  | _ => (Ok (zip X y), S g)
  end.

Definition predict_memo (memory : dict string) (X : list string)
    : result (list string) :=
  Ok ((λ doc, default "" (Py.get memory doc)) <$> X).

Definition cv_mean (scoring : string) (vect : TfidfVectorizer)
    (cls : clf_class) (X y : list string) (g : nat)
    : result pyfloat * nat :=
  (Ok (Fin (match stop_words vect with
            | PNone => 1 # 2
            | PStr _ => 3 # 4
            end)), S g).

Definition vectorize (vect : TfidfVectorizer) (texts : list string)
    : result (pyval * list string) :=
  match texts with
  | [] => Raise ValueError
  | _ => Ok (stop_words vect, texts)
  end.

#[refine] Definition lib (keras_accuracy : pyfloat) : MLLib :=
  {| rng := nat;
     sparse := list string;
     tfidf_state := pyval;
     coef := dict string;
     ndarray := list string;
     word_index := list string;
     net_weights := unit;
     np_seed n := n;
     np_permutation g n := (seq 0 n, S g);
     tfidf_fit_transform := vectorize;
     tfidf_transform _ texts := Ok texts;
     clf_fit := fit_memo;
     clf_predict := predict_memo;
     cross_val_mean := cv_mean;
     tokenizer_fit texts := texts;
     tokenizer_matrix _ _ texts _ := Ok texts;
     keras_fit _ _ _ _ _ _ g := (Ok (), S g);
     keras_eval_loss _ _ _ _ _ := Fin 0;
     keras_eval_metric _ _ _ _ _ := keras_accuracy |}.
Proof. intros g n. reflexivity. Defined.

(** Five tweets, the first of which lands in the test partition. *)
Definition frame : DataFrame :=
  [ Row "foo" "male"; Row "bar" "female"; Row "foo" "male";
    Row "bar" "female"; Row "baz" "brand" ].

End Toy.

(** ** Runs on the small library *)

Module ToyRun.

(** The object [TrainModels(Toy.frame)] builds from an empty store; the
    network will report the accuracy [keras_accuracy]. *)
Definition start (keras_accuracy : pyfloat)
    : @world (Toy.lib keras_accuracy) :=
  {| self :=
       {| df := Toy.frame;
          train := [ Row "bar" "female"; Row "foo" "male";
                     Row "bar" "female"; Row "baz" "brand" ];
          test := [ Row "foo" "male" ];
          __clfs := [("SVM", 0); ("Perceptron", 1)];
          X_train := ["bar"; "foo"; "bar"; "baz"] : @sparse (Toy.lib _);
          X_test := ["foo"] : @sparse (Toy.lib _);
          Y_train := ["female"; "male"; "female"; "brand"];
          Y_test := ["male"];
          tokenizer := None;
          lb_make := None |};
     heap :=
       <[1 := {| est_class := Perceptron; coef_ := None |}]>
         (<[0 := {| est_class := SGDClassifier; coef_ := None |}]> ∅);
     np_random := 7 |}.

(** A full run of [train_models] on [start], stage by stage. *)
Definition english : dict pyval := [("vect__stop_words", PStr "english")].

Definition benchmarked (acc : pyfloat) : @world (Toy.lib acc) :=
  (benchmark_all (items (__clfs (self (start acc)))) []
     (start acc)).2.

Definition optimized (acc : pyfloat) : @world (Toy.lib acc) :=
  (optimize 0 (benchmarked acc)).2.

Definition refitted (acc : pyfloat) : @world (Toy.lib acc) :=
  (__run_best_model english "SVM" (optimized acc)).2.

Definition trained (acc : pyfloat) : @world (Toy.lib acc) :=
  (train_sequential (refitted acc)).2.

Definition network (acc : pyfloat) : @keras.Sequential (Toy.lib acc) :=
  {| keras.layers := network_layers;
     keras.loss := Some "binary_crossentropy";
     keras.optimizer := Some "adam";
     keras.metrics := [accuracy];
     keras.weights := Some (() : @net_weights (Toy.lib acc)) |}.

End ToyRun.

(** ** Frames with other label sets *)

Module ToyLabels.

(** Four distinct gender labels among the training rows. *)
Definition four_labels : DataFrame :=
  [ Row "foo" "male"; Row "bar" "female"; Row "foo" "male";
    Row "baz" "brand"; Row "qux" "unknown" ].

(** The label of the one test row occurs in no training row. *)
Definition unseen_label : DataFrame :=
  [ Row "qux" "unknown"; Row "bar" "female"; Row "foo" "male";
    Row "bar" "female"; Row "baz" "brand" ].

End ToyLabels.

(** * Properties *)

(** ** Facts about float comparison and [max] *)

Lemma float_gt_false_le a b :
  float_finite a → float_finite b → float_gt a b = false → float_le a b.
Proof.
  intros [x ->] [y ->]; simpl. intros H.
  apply negb_false_iff in H. by apply Qle_bool_iff.
Qed.

Lemma float_gt_true_lt a b : float_gt a b = true → float_lt b a.
Proof.
  destruct a as [|x], b as [|y]; simpl; try done.
  intros H. apply negb_true_iff in H.
  apply Qnot_le_lt. intros Hle. apply Qle_bool_iff in Hle. congruence.
Qed.

Lemma float_le_refl a : float_finite a → float_le a a.
Proof. intros [x ->]; simpl. apply Qle_refl. Qed.

Lemma float_le_trans a b c : float_le a b → float_le b c → float_le a c.
Proof.
  destruct a, b, c; simpl; try done. apply Qle_trans.
Qed.

Lemma float_lt_le a b : float_lt a b → float_le a b.
Proof. destruct a, b; simpl; try done. apply Qlt_le_weak. Qed.

Lemma float_lt_le_trans a b c : float_lt a b → float_le b c → float_lt a c.
Proof. destruct a, b, c; simpl; try done. apply Qlt_le_trans. Qed.

Lemma float_le_lt_trans a b c : float_le a b → float_lt b c → float_lt a c.
Proof. destruct a, b, c; simpl; try done. apply Qle_lt_trans. Qed.

Section max_from.
Context {A : Type} (key : A → pyfloat).

(** The scan returns the element at some position [i] of [best :: rest]:
    nothing in the list beats it, and everything before it is strictly
    smaller. *)
Lemma max_from_spec rest : ∀ best,
  Forall (λ x, float_finite (key x)) (best :: rest) →
  ∃ i, (best :: rest) !! i = Some (max_from key best rest) ∧
       (∀ j x, (best :: rest) !! j = Some x →
               float_le (key x) (key (max_from key best rest))) ∧
       (∀ j x, j < i → (best :: rest) !! j = Some x →
               float_lt (key x) (key (max_from key best rest))).
Proof.
  induction rest as [|y rest IH]; intros best Hfin.
  - exists 0. simpl. split_and!; [done | | intros; lia].
    intros [|j] x Hx; simplify_eq/=. apply float_le_refl.
    by inversion Hfin.
  - inversion Hfin as [|? ? Hb Hrest]; subst.
    inversion Hrest as [|? ? Hy Hrest']; subst.
    simpl. destruct (float_gt (key y) (key best)) eqn:Hgt.
    + destruct (IH y) as (i & Hi & Hmax & Hfirst); [by constructor|].
      exists (S i). split_and!; [done | |].
      * intros [|j] x Hx; simplify_eq/=; [|by eapply Hmax].
        apply float_le_trans with (key y);
          [apply float_lt_le, float_gt_true_lt, Hgt | by apply (Hmax 0)].
      * intros [|j] x Hj Hx; simplify_eq/=.
        -- apply float_lt_le_trans with (key y);
             [by apply float_gt_true_lt | by apply (Hmax 0)].
        -- apply (Hfirst j); [lia | done].
    + destruct (IH best) as (i & Hi & Hmax & Hfirst); [by constructor|].
      destruct i as [|i].
      * exists 0. simpl in Hi. split_and!; [done | | intros; lia].
        intros [|[|j]] x Hx; simplify_eq/=.
        -- by apply (Hmax 0).
        -- rewrite <- Hi. by apply float_gt_false_le.
        -- by apply (Hmax (S j)).
      * exists (S (S i)). split_and!; [done | |].
        -- intros [|[|j]] x Hx; simplify_eq/=.
           ++ by apply (Hmax 0).
           ++ apply float_le_trans with (key best);
                [by apply float_gt_false_le | by apply (Hmax 0)].
           ++ by apply (Hmax (S j)).
        -- intros [|[|j]] x Hj Hx; simplify_eq/=.
           ++ apply (Hfirst 0); [lia | done].
           ++ apply float_le_lt_trans with (key best);
                [by apply float_gt_false_le | apply (Hfirst 0); [lia | done]].
           ++ apply (Hfirst (S j)); [lia | done].
Qed.
End max_from.


(** ** Model selection *)

(** C2.  On a mapping from model names to accuracy scores (finite floats),
    [__get_best_score] raises [ValueError] when the mapping is empty, so
    non-emptiness is a precondition; on a non-empty mapping it returns the
    name of an entry whose score no entry exceeds, and every entry inserted
    before it has a strictly smaller score: the first maximum in insertion
    order. *)
Theorem get_best_score_first_maximum (scores : dict pyfloat) :
  Forall (λ item, float_finite item.2) scores →
  (scores = [] → __get_best_score scores = Raise ValueError) ∧
  (scores ≠ [] →
   ∃ i name score,
     items scores !! i = Some (name, score) ∧
     __get_best_score scores = Ok name ∧
     (∀ j name' score', items scores !! j = Some (name', score') →
                        float_le score' score) ∧
     (∀ j name' score', j < i → items scores !! j = Some (name', score') →
                        float_lt score' score)).
Proof.
  intros Hfin. split; [by intros ->|].
  destruct scores as [|first rest]; [done|]. intros _.
  destruct (max_from_spec itemgetter_1 rest first Hfin)
    as (i & Hi & Hmax & Hfirst).
  destruct (max_from itemgetter_1 first rest) as [name score] eqn:Hbest.
  exists i, name, score. unfold items. split_and!; [done | | |].
  - unfold __get_best_score, items. simpl. by rewrite Hbest.
  - intros j name' score' Hj. apply (Hmax j _ Hj).
  - intros j name' score' Hlt Hj. apply (Hfirst j _ Hlt Hj).
Qed.

Lemma get_best_score_first_maximum_witness :
  let scores := [("SVM", Fin (9 # 10)); ("Perceptron", Fin (6 # 10))] in
  (scores = [] → __get_best_score scores = Raise ValueError) ∧
  (scores ≠ [] →
   ∃ i name score,
     items scores !! i = Some (name, score) ∧
     __get_best_score scores = Ok name ∧
     (∀ j name' score', items scores !! j = Some (name', score') →
                        float_le score' score) ∧
     (∀ j name' score', j < i → items scores !! j = Some (name', score') →
                        float_lt score' score)).
Proof.
  apply (get_best_score_first_maximum
           [("SVM", Fin (9 # 10)); ("Perceptron", Fin (6 # 10))]).
  repeat constructor; eexists; reflexivity.
Defined.

(** The example of the specification, and a tie. *)
Example get_best_score_dominant :
  __get_best_score [("SVM", Fin (9 # 10)); ("Perceptron", Fin (6 # 10))]
  = Ok "SVM".
Proof. reflexivity. Qed.

Example get_best_score_tie :
  __get_best_score [("SVM", Fin (1 # 2)); ("Perceptron", Fin (2 # 4))]
  = Ok "SVM".
Proof. reflexivity. Qed.

(** ** Accuracy *)

Lemma correct_le y_true y_pred :
  sklearn.correct y_true y_pred ≤ length y_true.
Proof.
  unfold sklearn.correct.
  etransitivity; [apply length_filter|].
  rewrite length_zip_with. lia.
Qed.

(** [accuracy_score] on a non-empty sample is a fraction between 0 and 1. *)
Lemma accuracy_score_unit_interval y_true y_pred score :
  y_true ≠ [] →
  sklearn.accuracy_score y_true y_pred = Ok score →
  ∃ q, score = Fin q ∧ (0 <= q)%Q ∧ (q <= 1)%Q.
Proof.
  intros Hne. unfold sklearn.accuracy_score.
  destruct (decide _) as [Hlen|]; [|done].
  destruct (length y_true) as [|n] eqn:Hn.
  { by destruct y_true. }
  intros [= <-]. eexists; split; [done|].
  pose proof (correct_le y_true y_pred) as Hle. rewrite Hn in Hle.
  unfold Qle; simpl. split; [lia|].
  rewrite Z.mul_1_r, Z.mul_1_l.
  rewrite <- positive_nat_Z, Nat2Pos.id by done. lia.
Qed.

(** ** Reasoning about computations in [M] *)

Section reasoning.
Context `{MLLib}.

Lemma bind_Ok_inv {A B} (m : M A) (f : A → M B) w b w' :
  (m ≫= f) w = (Ok b, w') →
  ∃ a w1, m w = (Ok a, w1) ∧ f a w1 = (Ok b, w').
Proof.
  unfold mbind, M_bind. destruct (m w) as [[a|e] w1]; [eauto | done].
Qed.

Lemma bind_run {A B} (m : M A) (f : A → M B) w a w1 :
  m w = (Ok a, w1) → (m ≫= f) w = f a w1.
Proof. unfold mbind, M_bind. by intros ->. Qed.

Lemma bind_raise {A B} (m : M A) (f : A → M B) w e w1 :
  m w = (Raise e, w1) → (m ≫= f) w = (Raise e, w1).
Proof. unfold mbind, M_bind. by intros ->. Qed.

(** *** Frames: what a computation leaves alone

    [keeps R m] says that the world after [m], whether it returns or
    raises, is related by [R] to the world before. *)
Section keeps.
Context (R : relation world) `{!PreOrder R}.

Lemma keeps_ret {A} (a : A) : keeps R (mret a).
Proof. intros w. simpl. reflexivity. Qed.

Lemma keeps_lift {A} (r : result A) : keeps R (lift r).
Proof. intros w. simpl. reflexivity. Qed.

Lemma keeps_attr {A} (field : TrainModels → A) : keeps R (attr field).
Proof. intros w. simpl. reflexivity. Qed.

Lemma keeps_deref l : keeps R (deref l).
Proof. intros w. unfold deref. case_match; simpl; reflexivity. Qed.

Lemma keeps_bind {A B} (m : M A) (f : A → M B) :
  keeps R m → (∀ a, keeps R (f a)) → keeps R (m ≫= f).
Proof.
  intros Hm Hf w. unfold mbind, M_bind.
  specialize (Hm w). destruct (m w) as [[a|e] w1]; simpl in *; [|done].
  etransitivity; [exact Hm | apply Hf].
Qed.

Lemma keeps_mapM {A B} (f : A → M B) (l : list A) :
  (∀ a, keeps R (f a)) → keeps R (mapM f l).
Proof.
  intros Hf. induction l as [|a l IH]; simpl.
  - apply keeps_ret.
  - apply keeps_bind; [done|]. intros b.
    apply keeps_bind; [done|]. intros k. apply keeps_ret.
Qed.
End keeps.

Global Instance same_data_preorder : PreOrder same_data.
Proof.
  split; [done|]. unfold same_data. intros w1 w2 w3 H12 H23. congruence.
Qed.

Global Instance same_heap_preorder : PreOrder same_heap.
Proof.
  split; [done|]. unfold same_heap. intros w1 w2 w3 H12 H23. congruence.
Qed.

Global Instance same_heap_but_preorder l : PreOrder (same_heap_but l).
Proof.
  split; [done|]. unfold same_heap_but. intros w1 w2 w3 H12 H23 l' Hl'.
  by rewrite H23, H12.
Qed.

Lemma same_heap_same_heap_but l w w' :
  same_heap w w' → same_heap_but l w w'.
Proof. intros Hh l' _. by rewrite Hh. Qed.

(** The primitive operations against each frame. *)
Lemma random_same_data {A} (op : rng → result A * rng) :
  keeps same_data (random op).
Proof. intros w. unfold random. by case_match. Qed.

Lemma random_same_heap {A} (op : rng → result A * rng) :
  keeps same_heap (random op).
Proof. intros w. unfold random. by case_match. Qed.

Lemma store_same_data l est : keeps same_data (store l est).
Proof. done. Qed.

Lemma store_same_heap_but l est : keeps (same_heap_but l) (store l est).
Proof. intros w l' Hl'. simpl. by rewrite lookup_insert_ne. Qed.

Lemma set_lb_make_same_data v : keeps same_data (set_lb_make v).
Proof. done. Qed.

Lemma set_lb_make_same_heap v : keeps same_heap (set_lb_make v).
Proof. done. Qed.

Lemma set_tokenizer_same_data v : keeps same_data (set_tokenizer v).
Proof. done. Qed.

Lemma set_tokenizer_same_heap v : keeps same_heap (set_tokenizer v).
Proof. done. Qed.

Lemma keeps_weaken {A} (R R' : relation world) (m : M A) :
  (∀ w w', R w w' → R' w w') → keeps R m → keeps R' m.
Proof. intros HR Hm w. apply HR, Hm. Qed.

End reasoning.

Create HintDb frame discriminated.

#[global] Hint Resolve keeps_ret keeps_lift keeps_attr keeps_deref
  random_same_data random_same_heap store_same_data store_same_heap_but
  set_lb_make_same_data set_lb_make_same_heap set_tokenizer_same_data
  set_tokenizer_same_heap : frame.

(** Walk through a computation bind by bind, splitting on the matches of
    the code, and close the primitive steps from the hint database. *)
Ltac frame_step :=
  match goal with
  | |- keeps _ (mbind _ _) => apply keeps_bind; [apply _ | | intros ?]
  | |- keeps _ (mapM _ _) => apply keeps_mapM; [apply _ | intros ?]
  | |- keeps _ (match ?x with _ => _ end) => destruct x
  | |- keeps _ (let '(_, _) := ?x in _) => destruct x
  | |- keeps (same_heap_but _) (random _) =>
      eapply keeps_weaken;
      [apply same_heap_same_heap_but | apply random_same_heap]
  | |- keeps _ _ => solve [eauto with frame typeclass_instances]
  end.

Ltac frame := repeat frame_step.

Section frames.
Context `{MLLib}.

Lemma fit_same_data clf X y : keeps same_data (fit clf X y).
Proof. unfold fit. frame. Qed.

Lemma fit_same_heap_but clf X y : keeps (same_heap_but clf) (fit clf X y).
Proof. unfold fit. frame. Qed.

Lemma predict_keeps R `{!PreOrder R} clf X : keeps R (predict clf X).
Proof. unfold predict. frame. Qed.

End frames.

#[global] Hint Resolve fit_same_data fit_same_heap_but predict_keeps : frame.

(** ** What each method leaves alone *)

Section method_frames.
Context `{MLLib}.

Lemma benchmark_same_data clf : keeps same_data (__benchmark clf).
Proof. unfold __benchmark. frame. Qed.

Lemma benchmark_same_heap_but clf :
  keeps (same_heap_but clf) (__benchmark clf).
Proof.
  unfold __benchmark. frame.
Qed.

Lemma GridSearchCV_fit_keeps R `{!PreOrder R} vect clf grid scoring X y :
  (∀ A (op : rng → result A * rng), keeps R (random op)) →
  keeps R (GridSearchCV_fit vect clf grid scoring X y).
Proof. intros Hrandom. unfold GridSearchCV_fit. frame. Qed.

Lemma optimize_same_data best_func : keeps same_data (optimize best_func).
Proof.
  unfold optimize. frame.
  apply GridSearchCV_fit_keeps; [apply _ | apply @random_same_data].
Qed.

Lemma optimize_same_heap best_func : keeps same_heap (optimize best_func).
Proof.
  unfold optimize. frame.
  apply GridSearchCV_fit_keeps; [apply _ | apply @random_same_heap].
Qed.

Lemma run_best_model_same_data best_params best_clf :
  keeps same_data (__run_best_model best_params best_clf).
Proof.
  unfold __run_best_model. frame.
Qed.

Lemma build_matrix_same_data : keeps same_data build_matrix.
Proof. unfold build_matrix. frame. Qed.

Lemma build_matrix_same_heap : keeps same_heap build_matrix.
Proof. unfold build_matrix. frame. Qed.

Lemma Sequential_fit_keeps R `{!PreOrder R} model x y epochs :
  (∀ A (op : rng → result A * rng), keeps R (random op)) →
  keeps R (Sequential_fit model x y epochs).
Proof. intros Hrandom. unfold Sequential_fit. frame. Qed.

Lemma train_sequential_same_data : keeps same_data train_sequential.
Proof.
  unfold train_sequential.
  pose proof build_matrix_same_data.
  pose proof (λ m x y e, Sequential_fit_keeps same_data m x y e
                           (@random_same_data _)).
  frame.
Qed.

Lemma train_sequential_same_heap : keeps same_heap train_sequential.
Proof.
  unfold train_sequential.
  pose proof build_matrix_same_heap.
  pose proof (λ m x y e, Sequential_fit_keeps same_heap m x y e
                           (@random_same_heap _)).
  frame.
Qed.

Lemma benchmark_all_same_data registry scores :
  keeps same_data (benchmark_all registry scores).
Proof.
  revert scores. induction registry as [|[name clf] registry IH];
    intros scores; simpl.
  - apply keeps_ret, _.
  - apply keeps_bind; [apply _ | apply benchmark_same_data | done].
Qed.

Lemma train_models_same_data : keeps same_data train_models.
Proof.
  unfold train_models.
  pose proof benchmark_all_same_data. pose proof optimize_same_data.
  pose proof run_best_model_same_data.
  pose proof train_sequential_same_data.
  frame.
Qed.

End method_frames.

(** ** Calls on a constructed object *)

Section calls.
Context `{MLLib}.

Lemma after_same_data m w : same_data w (after m w).
Proof.
  destruct m; simpl; try reflexivity.
  - apply benchmark_same_data.
  - apply optimize_same_data.
  - apply run_best_model_same_data.
  - apply build_matrix_same_data.
  - apply train_sequential_same_data.
  - apply train_models_same_data.
Qed.

Lemma after_all_same_data ms w : same_data w (after_all ms w).
Proof.
  revert w. induction ms as [|m ms IH]; intros w; simpl; [reflexivity|].
  etransitivity; [apply (after_same_data m) | apply IH].
Qed.

Lemma same_data_heap_registry w w' :
  same_data w w' → same_heap w w' → registry w' = registry w.
Proof.
  unfold same_data, same_heap, fixed_attributes, registry.
  intros [= _ _ _ Hclfs _ _ _ _] Hh. by rewrite Hh, Hclfs.
Qed.

(** [fit], step by step. *)
Lemma fit_run clf X y w :
  fit clf X y w =
    match heap w !! clf with
    | None => (Raise (LibraryError "invalid reference"), w)
    | Some est =>
        match clf_fit (est_class est) X y (np_random w) with
        | (Ok c, g) =>
            (Ok (),
             {| self := self w;
                heap := <[clf := {| est_class := est_class est;
                                    coef_ := Some c |}]> (heap w);
                np_random := g |})
        | (Raise e, g) =>
            (Raise e,
             {| self := self w; heap := heap w; np_random := g |})
        end
    end.
Proof.
  unfold fit, mbind, M_bind, deref, random, store.
  destruct (heap w !! clf) as [est|]; [|done].
  by destruct (clf_fit _ _ _ _) as [[c|e] g].
Qed.

Lemma predict_run clf X w :
  predict clf X w =
    match heap w !! clf with
    | None => (Raise (LibraryError "invalid reference"), w)
    | Some est =>
        match coef_ est with
        | None => (Raise NotFittedError, w)
        | Some c => (clf_predict c X, w)
        end
    end.
Proof.
  unfold predict, mbind, M_bind, deref.
  destruct (heap w !! clf) as [est|]; [|done].
  simpl. destruct (coef_ est) as [c|]; unfold lift; [|done].
  by destruct (clf_predict c X).
Qed.

(** The refit touches no object but the one registered under
    [best_clf]. *)
Lemma run_best_model_heap best_params best_clf w l :
  getitem (__clfs (self w)) best_clf ≠ Ok l →
  heap (__run_best_model best_params best_clf w).2 !! l = heap w !! l.
Proof.
  intros Hl. unfold __run_best_model.
  do 2 (erewrite bind_run by reflexivity; cbv beta).
  destruct (tfidf_fit_transform _ _) as [[tf_idf train_X]|e];
    [|by erewrite bind_raise].
  erewrite bind_run by reflexivity; cbv beta iota.
  destruct (tfidf_transform _ _) as [test_X|e];
    [|by erewrite bind_raise].
  do 2 (erewrite bind_run by reflexivity; cbv beta).
  destruct (getitem _ _) as [clf_func|e] eqn:Hget;
    [|by erewrite bind_raise].
  erewrite bind_run by reflexivity; cbv beta.
  assert (l ≠ clf_func) as Hne by congruence.
  match goal with
  | |- heap (?m w).2 !! l = _ =>
      cut (keeps (same_heap_but clf_func) m);
      [intros Hk; by apply Hk | frame]
  end.
Qed.

(** The world a bind leaves behind. *)
Lemma bind_world {A B} (m : M A) (f : A → M B) w :
  ((m ≫= f) w).2
  = match m w with
    | (Ok a, w1) => (f a w1).2
    | (Raise _, w1) => w1
    end.
Proof. unfold mbind, M_bind. by destruct (m w) as [[a|e] w1]. Qed.

Lemma getitem_Ok_elem {V} (d : dict V) key v :
  getitem d key = Ok v → v ∈ d.*2.
Proof.
  unfold getitem. induction d as [|[k v'] d IH]; simpl; [done|].
  destruct (decide (k = key)).
  - intros [= ->]. apply list_elem_of_here.
  - intros Hget. apply list_elem_of_further, IH, Hget.
Qed.

(** The benchmark loop touches no object outside the list it is given. *)
Lemma benchmark_all_heap registry scores w l :
  l ∉ registry.*2 →
  heap (benchmark_all registry scores w).2 !! l = heap w !! l.
Proof.
  revert scores w. induction registry as [|[name clf] registry IH];
    intros scores w Hl; simpl; [done|].
  apply not_elem_of_cons in Hl as [Hne Hl]. simpl in Hne.
  rewrite bind_world.
  pose proof (benchmark_same_heap_but clf w l Hne) as Hclf.
  destruct (__benchmark clf w) as [[score|e] w1]; simpl in Hclf; [|done].
  by rewrite IH.
Qed.

(** The driver touches no object outside the registry. *)
Lemma train_models_heap w l :
  l ∉ (items (__clfs (self w))).*2 →
  heap (train_models w).2 !! l = heap w !! l.
Proof.
  intros Hl. unfold train_models.
  erewrite bind_run by reflexivity; cbv beta.
  rewrite bind_world.
  pose proof (benchmark_all_heap (items (__clfs (self w))) [] w l Hl) as Hh1.
  pose proof (benchmark_all_same_data (items (__clfs (self w))) [] w) as Hd1.
  destruct (benchmark_all _ _ w) as [[scores|e] w1]; simpl in Hh1, Hd1;
    [|done].
  assert (__clfs (self w1) = __clfs (self w)) as Hclfs.
  { unfold same_data, fixed_attributes in Hd1.
    by injection Hd1 as _ _ _ -> _ _ _ _. }
  destruct (__get_best_score scores) as [best|e];
    [|by erewrite bind_raise].
  do 2 (erewrite bind_run by reflexivity; cbv beta).
  destruct (getitem (__clfs (self w1)) best) as [best_func|e] eqn:Hget;
    [|by erewrite bind_raise].
  erewrite bind_run by reflexivity; cbv beta.
  rewrite bind_world.
  pose proof (optimize_same_heap best_func w1) as Hh2.
  pose proof (optimize_same_data best_func w1) as Hd2.
  destruct (optimize best_func w1) as [[best_params|e] w2];
    simpl in Hh2, Hd2; unfold same_heap in Hh2; [|by rewrite Hh2].
  assert (__clfs (self w2) = __clfs (self w)) as Hclfs2.
  { unfold same_data, fixed_attributes in Hd2.
    injection Hd2 as _ _ _ Hd2 _ _ _ _. by rewrite Hd2. }
  rewrite bind_world.
  assert (getitem (__clfs (self w2)) best ≠ Ok l) as Hne.
  { intros Hget2. apply getitem_Ok_elem in Hget2.
    by rewrite Hclfs2 in Hget2. }
  pose proof (run_best_model_heap best_params best w2 l Hne) as Hh3.
  destruct (__run_best_model best_params best w2)
    as [[[simple_score simple_model]|e] w3]; simpl in Hh3;
    [|by rewrite Hh3, Hh2].
  rewrite bind_world.
  pose proof (train_sequential_same_heap w3) as Hh4.
  destruct (train_sequential w3) as [[[keras_model keras_score]|e] w4];
    simpl in Hh4; unfold same_heap in Hh4; [|by rewrite Hh4, Hh3, Hh2].
  destruct (float_ge keras_score simple_score); simpl;
    by rewrite Hh4, Hh3, Hh2.
Qed.

End calls.

(** ** The train/test split *)

Section split.
Context `{MLLib}.

(** A fifth of the rows, rounded up. *)
Lemma n_test_of_fifth n :
  n ≤ 5 * sklearn.n_test_of (2 # 10) n ∧
  5 * sklearn.n_test_of (2 # 10) n < n + 5.
Proof.
  unfold sklearn.n_test_of.
  set (x := ((2 # 10) * inject_Z (Z.of_nat n))%Q).
  pose proof (Qle_ceiling x) as Hle. pose proof (Qceiling_lt x) as Hlt.
  generalize dependent (Qceiling x). intros c.
  unfold Qle, Qlt, x, Qmult, inject_Z. cbn [Qnum Qden Pos.mul].
  lia.
Qed.

Lemma iloc_length (frame : DataFrame) positions :
  Forall (λ i, i < length frame) positions →
  length (iloc frame positions) = length positions.
Proof.
  unfold iloc. induction 1 as [|i positions Hi _ IH]; [done|].
  destruct (lookup_lt_is_Some_2 frame i Hi) as [r Hr].
  cbn. rewrite Hr. cbn. by rewrite IH.
Qed.

(** The split of a frame with at least two rows: which positions go
    where. *)
Lemma train_test_split_positions (frame : DataFrame) (g : rng) :
  2 ≤ length frame →
  ∃ ind_train ind_test g',
    sklearn.train_test_split frame (2 # 10) g
      = (Ok (iloc frame ind_train, iloc frame ind_test), g') ∧
    ind_test ++ ind_train ≡ₚ seq 0 (length frame) ∧
    length ind_test = sklearn.n_test_of (2 # 10) (length frame).
Proof.
  intros Hn. unfold sklearn.train_test_split.
  pose proof (n_test_of_fifth (length frame)) as [Hlo Hhi].
  set (n_test := sklearn.n_test_of (2 # 10) (length frame)) in *.
  destruct (decide _) as [Hz|_]; [lia|].
  pose proof (np_permutation_perm g (length frame)) as Hperm.
  destruct (np_permutation g (length frame)) as [perm g'] eqn:Hp.
  simpl in Hperm.
  assert (length perm = length frame) as Hlen.
  { by rewrite Hperm, length_seq. }
  exists (take (length frame - n_test) (drop n_test perm)),
    (take n_test perm), g'.
  split_and!; [done | |].
  - rewrite (take_ge (drop n_test perm)) by (rewrite length_drop; lia).
    by rewrite take_drop.
  - rewrite length_take. lia.
Qed.

(** A frame that leaves no row for training is rejected. *)
Lemma train_test_split_too_small (frame : DataFrame) (g : rng) :
  length frame < 2 →
  sklearn.train_test_split frame (2 # 10) g = (Raise ValueError, g).
Proof.
  intros Hn. unfold sklearn.train_test_split.
  destruct (decide _) as [|Hnz]; [done|]. exfalso. apply Hnz.
  destruct frame as [|r [|r' frame]]; simpl in *; [done | | lia].
  by vm_compute.
Qed.

Lemma init_too_small (frame : DataFrame) h (g : rng) :
  length frame < 2 → __init__ frame h g = Raise ValueError.
Proof.
  intros Hn. unfold __init__.
  by rewrite train_test_split_too_small.
Qed.

End split.

(** ** The constructor on the small library *)

Lemma toy_init_start keras_accuracy :
  __init__ (H := Toy.lib keras_accuracy) Toy.frame ∅ 0
  = Ok (ToyRun.start keras_accuracy).
Proof. by vm_compute. Qed.

(** ** The train/test split, continued *)

(** C3, as amended.  On a data frame with at least two rows the split at
    construction selects two position lists that together are a
    rearrangement of all row positions and share no position, so the
    partitions are disjoint and their sizes add up to the number of rows;
    the test partition is less than one row away from 20% of the rows; and
    no sequence of later method calls changes [self.train] or
    [self.test]. *)
Theorem split_partitions_fixed `{MLLib} (data_frame : DataFrame)
    (h : gmap loc estimator) (g : rng) :
  2 ≤ length data_frame →
  ∃ ind_train ind_test g',
    sklearn.train_test_split data_frame (2 # 10) g
      = (Ok (iloc data_frame ind_train, iloc data_frame ind_test), g') ∧
    ind_train ++ ind_test ≡ₚ seq 0 (length data_frame) ∧
    (∀ i, i ∈ ind_train → i ∉ ind_test) ∧
    length (iloc data_frame ind_train) + length (iloc data_frame ind_test)
      = length data_frame ∧
    (Qabs (inject_Z (Z.of_nat (length (iloc data_frame ind_test)))
           - (2 # 10) * inject_Z (Z.of_nat (length data_frame))) < 1)%Q ∧
    ∀ w, __init__ data_frame h g = Ok w →
      train (self w) = iloc data_frame ind_train ∧
      test (self w) = iloc data_frame ind_test ∧
      ∀ ms, train (self (after_all ms w)) = train (self w) ∧
            test (self (after_all ms w)) = test (self w).
Proof.
  intros Hn.
  destruct (train_test_split_positions data_frame g Hn)
    as (ind_train & ind_test & g' & Hsplit & Hperm & Hlen).
  exists ind_train, ind_test, g'.
  assert (ind_train ++ ind_test ≡ₚ seq 0 (length data_frame)) as Hperm'.
  { by rewrite (comm (++)). }
  assert (NoDup (ind_train ++ ind_test)) as Hnodup.
  { rewrite Hperm'. apply NoDup_seq. }
  assert (Forall (λ i, i < length data_frame) (ind_train ++ ind_test))
    as Hbound.
  { rewrite Hperm'. apply Forall_forall. intros i Hi.
    apply elem_of_seq in Hi. lia. }
  apply Forall_app in Hbound as [Hbtrain Hbtest].
  rewrite !iloc_length by done.
  split_and!; [done | done | | | |].
  - intros i Hi Hi'. apply NoDup_app in Hnodup as (_ & Hdisj & _).
    by apply (Hdisj i).
  - rewrite <- length_app, Hperm'. apply length_seq.
  - rewrite Hlen.
    pose proof (n_test_of_fifth (length data_frame)) as [Hlo Hhi].
    generalize dependent (sklearn.n_test_of (2 # 10) (length data_frame)).
    intros t _ Hlo Hhi.
    apply Qabs_Qlt_condition.
    unfold Qlt, Qminus, Qplus, Qopp, Qmult, inject_Z.
    cbn [Qnum Qden Pos.mul]. lia.
  - intros w Hinit. unfold __init__ in Hinit. rewrite Hsplit in Hinit.
    simpl in Hinit.
    destruct (__tf_idf_feature_extraction _ _) as [[Xtr Xte]|]; [|done].
    simpl in Hinit. injection Hinit as <-. simpl.
    split_and!; [done | done |].
    intros ms.
    match goal with
    | |- context [after_all ms ?w0] =>
        pose proof (after_all_same_data ms w0) as Hsame
    end.
    unfold same_data, fixed_attributes in Hsame.
    by injection Hsame as _ -> -> _ _ _ _ _.
Qed.

Lemma split_partitions_fixed_witness :
  ∃ ind_train ind_test,
    train (self (ToyRun.start NaN)) = iloc Toy.frame ind_train ∧
    test (self (ToyRun.start NaN)) = iloc Toy.frame ind_test ∧
    ind_train ++ ind_test ≡ₚ seq 0 5.
Proof.
  destruct (split_partitions_fixed (H := Toy.lib NaN) Toy.frame ∅ 0)
    as (ind_train & ind_test & g' & _ & Hperm & _ & _ & _ & Hinit).
  { simpl. lia. }
  exists ind_train, ind_test.
  destruct (Hinit _ (toy_init_start NaN)) as (Htrain & Htest & _).
  by split_and!.
Defined.

(** The specification speaks of every data frame; a frame with a single
    row leaves nothing to train on and the constructor raises. *)
Lemma split_single_row_raises :
  __init__ (H := Toy.lib NaN) [Row "foo" "male"] ∅ 0 = Raise ValueError.
Proof. reflexivity. Qed.

(** ** The benchmark step *)

Section benchmark.
Context `{MLLib}.

(** What a benchmark that returns has done. *)
Lemma benchmark_Ok_inv clf w score w' :
  __benchmark clf w = (Ok score, w') →
  ∃ est c g pred,
    heap w !! clf = Some est ∧
    clf_fit (est_class est) (X_train (self w)) (Y_train (self w))
      (np_random w) = (Ok c, g) ∧
    clf_predict c (X_test (self w)) = Ok pred ∧
    sklearn.accuracy_score (Y_test (self w)) pred = Ok score ∧
    w' = {| self := self w;
            heap := <[clf := {| est_class := est_class est;
                                coef_ := Some c |}]> (heap w);
            np_random := g |}.
Proof.
  unfold __benchmark.
  do 2 (erewrite bind_run by reflexivity; cbv beta).
  intros Hrun. apply bind_Ok_inv in Hrun as ([] & w1 & Hfit & Hrun).
  rewrite fit_run in Hfit.
  destruct (heap w !! clf) as [est|] eqn:Hclf; [|done].
  destruct (clf_fit _ _ _ _) as [[c|e] g] eqn:Hc; [|done].
  injection Hfit as <-.
  erewrite bind_run in Hrun by reflexivity; cbv beta in Hrun.
  apply bind_Ok_inv in Hrun as (pred & w2 & Hpred & Hrun).
  rewrite predict_run in Hpred. simpl in Hpred.
  rewrite lookup_insert_eq in Hpred. simpl in Hpred.
  injection Hpred as Hpred <-.
  erewrite bind_run in Hrun by reflexivity; cbv beta in Hrun.
  apply bind_Ok_inv in Hrun as (score' & w3 & Hscore & Hrun).
  injection Hscore as Hscore <-. injection Hrun as <- <-.
  by exists est, c, g, pred.
Qed.

(** A benchmark whose library calls succeed returns. *)
Lemma benchmark_returns clf w est c g pred :
  heap w !! clf = Some est →
  clf_fit (est_class est) (X_train (self w)) (Y_train (self w))
    (np_random w) = (Ok c, g) →
  clf_predict c (X_test (self w)) = Ok pred →
  length pred = length (Y_test (self w)) →
  ∃ score w', __benchmark clf w = (Ok score, w').
Proof.
  intros Hclf Hc Hpred Hlen. unfold __benchmark.
  do 2 (erewrite bind_run by reflexivity; cbv beta).
  erewrite bind_run by (rewrite fit_run, Hclf, Hc; reflexivity).
  cbv beta. erewrite bind_run by reflexivity; cbv beta.
  erewrite bind_run; cycle 1.
  { rewrite predict_run. simpl. rewrite lookup_insert_eq. simpl.
    by rewrite Hpred. }
  cbv beta. erewrite bind_run by reflexivity; cbv beta.
  unfold sklearn.accuracy_score. simpl.
  rewrite decide_True by done.
  destruct (length (Y_test (self w))); eauto.
Qed.

(** What a refit that returns has done. *)
Lemma run_best_model_Ok_inv best_params best_clf w score clf w' :
  __run_best_model best_params best_clf w = (Ok (score, clf), w') →
  ∃ est tf train_X test_X c g pred,
    getitem (__clfs (self w)) best_clf = Ok clf ∧
    heap w !! clf = Some est ∧
    tfidf_fit_transform
      {| stop_words :=
           default PNone (Py.get best_params "vect__stop_words") |}
      (text_col (train (self w))) = Ok (tf, train_X) ∧
    tfidf_transform tf (text_col (test (self w))) = Ok test_X ∧
    clf_fit (est_class est) train_X (gender_col (train (self w)))
      (np_random w) = (Ok c, g) ∧
    clf_predict c test_X = Ok pred ∧
    sklearn.accuracy_score (gender_col (test (self w))) pred = Ok score ∧
    w' = {| self := self w;
            heap := <[clf := {| est_class := est_class est;
                                coef_ := Some c |}]> (heap w);
            np_random := g |}.
Proof.
  unfold __run_best_model.
  do 2 (erewrite bind_run by reflexivity; cbv beta).
  destruct (tfidf_fit_transform _ _) as [[tf train_X]|e] eqn:Htf;
    [|by erewrite bind_raise].
  erewrite bind_run by reflexivity; cbv beta iota.
  destruct (tfidf_transform _ _) as [test_X|e] eqn:Htest;
    [|by erewrite bind_raise].
  do 2 (erewrite bind_run by reflexivity; cbv beta).
  destruct (getitem _ _) as [clf_func|e] eqn:Hget;
    [|by erewrite bind_raise].
  erewrite bind_run by reflexivity; cbv beta.
  intros Hrun. apply bind_Ok_inv in Hrun as ([] & w1 & Hfit & Hrun).
  rewrite fit_run in Hfit.
  destruct (heap w !! clf_func) as [est|] eqn:Hclf; [|done].
  destruct (clf_fit _ _ _ _) as [[c|e] g] eqn:Hc; [|done].
  injection Hfit as <-.
  apply bind_Ok_inv in Hrun as (pred & w2 & Hpred & Hrun).
  rewrite predict_run in Hpred. simpl in Hpred.
  rewrite lookup_insert_eq in Hpred. simpl in Hpred.
  injection Hpred as Hpred <-.
  apply bind_Ok_inv in Hrun as (score' & w3 & Hscore & Hrun).
  injection Hscore as Hscore <-. injection Hrun as <- <- <-.
  by exists est, tf, train_X, test_X, c, g, pred.
Qed.

End benchmark.

(** ** The classifier registry *)

(** C4, as amended.  No method changes which names the registry holds or
    which objects they refer to.  The classifier objects themselves are
    refitted in place by the benchmark step (the benchmarked object, and no
    other) and by the refit step [__run_best_model] (the object registered
    under the selected name, and no other); every other method, including
    the grid search of [optimize], which fits clones, leaves every entry of
    the registry as it was.  The driver [train_models] runs these steps and
    touches no object outside the registry. *)
Theorem registry_changed_by_fit_only `{MLLib} (m : method) (w : world) :
  __clfs (self (after m w)) = __clfs (self w) ∧
  match m with
  | call_benchmark clf =>
      (∀ l, l ≠ clf → heap (after m w) !! l = heap w !! l) ∧
      (∀ score w', __benchmark clf w = (Ok score, w') →
         ∃ est c, heap w !! clf = Some est ∧
                  heap w' !! clf
                  = Some {| est_class := est_class est; coef_ := Some c |})
  | call_run_best_model best_params best_clf =>
      (∀ l, getitem (__clfs (self w)) best_clf ≠ Ok l →
            heap (after m w) !! l = heap w !! l) ∧
      (∀ score clf w',
         __run_best_model best_params best_clf w = (Ok (score, clf), w') →
         ∃ est c, getitem (__clfs (self w)) best_clf = Ok clf ∧
                  heap w !! clf = Some est ∧
                  heap w' !! clf
                  = Some {| est_class := est_class est; coef_ := Some c |})
  | call_train_models =>
      ∀ l, l ∉ (items (__clfs (self w))).*2 →
           heap (after m w) !! l = heap w !! l
  | _ => registry (after m w) = registry w
  end.
Proof.
  split.
  { pose proof (after_same_data m w) as Hsame.
    unfold same_data, fixed_attributes in Hsame.
    by injection Hsame as _ _ _ -> _ _ _ _. }
  destruct m; simpl; try done.
  - split; [intros l Hl; by apply (benchmark_same_heap_but clf w)|].
    intros score w' Hrun.
    apply benchmark_Ok_inv in Hrun
      as (est & c & g & pred & Hclf & _ & _ & _ & ->).
    exists est, c. split; [done|]. simpl. by rewrite lookup_insert_eq.
  - apply same_data_heap_registry;
      [apply optimize_same_data | apply optimize_same_heap].
  - split; [intros l Hl; by apply run_best_model_heap|].
    intros score clf w' Hrun.
    apply run_best_model_Ok_inv in Hrun
      as (est & tf & train_X & test_X & c & g & pred & Hget & Hclf & _ & _
          & _ & _ & _ & ->).
    exists est, c. split_and!; [done | done |].
    simpl. by rewrite lookup_insert_eq.
  - apply same_data_heap_registry;
      [apply build_matrix_same_data | apply build_matrix_same_heap].
  - apply same_data_heap_registry;
      [apply train_sequential_same_data | apply train_sequential_same_heap].
  - intros l Hl. by apply train_models_heap.
Qed.

(** The benchmark step does change an entry: the untrained SVM of a new
    object is trained afterwards. *)
Lemma benchmark_changes_registry :
  registry (after (call_benchmark 0) (ToyRun.start NaN))
  ≠ registry (ToyRun.start NaN).
Proof. vm_compute. discriminate. Qed.

Example benchmark_changes_registry_before :
  registry (ToyRun.start NaN)
  = [("SVM", Some {| est_class := SGDClassifier; coef_ := None |});
     ("Perceptron", Some {| est_class := Perceptron; coef_ := None |})].
Proof. reflexivity. Qed.

Example benchmark_changes_registry_after :
  registry (after (call_benchmark 0) (ToyRun.start NaN))
  = [("SVM",
      Some (@Build_estimator (Toy.lib NaN) SGDClassifier
              (Some [("bar", "female"); ("foo", "male");
                     ("bar", "female"); ("baz", "brand")])));
     ("Perceptron", Some {| est_class := Perceptron; coef_ := None |})].
Proof. reflexivity. Qed.

(** C8.  Whatever the classifier, when the test partition is not empty the
    accuracy [__benchmark] reports is the number of test labels predicted
    exactly, divided by the number of test labels, and lies between 0 and
    1.  The predictions are those the classifier object gives for the test
    features once the step has fitted it on the training features and
    labels; the fitted object is the one the step leaves in the store. *)
Theorem benchmark_accuracy_unit_interval `{MLLib} (clf : loc) (w : world)
    (score : pyfloat) (w' : world) :
  Y_test (self w) ≠ [] →
  __benchmark clf w = (Ok score, w') →
  ∃ est c g pred q,
    heap w !! clf = Some est ∧
    clf_fit (est_class est) (X_train (self w)) (Y_train (self w))
      (np_random w) = (Ok c, g) ∧
    heap w' !! clf
      = Some {| est_class := est_class est; coef_ := Some c |} ∧
    clf_predict c (X_test (self w)) = Ok pred ∧
    length pred = length (Y_test (self w)) ∧
    score = Fin q ∧
    (q == Z.of_nat (sklearn.correct (Y_test (self w)) pred)
          # Pos.of_nat (length (Y_test (self w))))%Q ∧
    (0 <= q)%Q ∧ (q <= 1)%Q.
Proof.
  intros Hne Hrun.
  apply benchmark_Ok_inv in Hrun
    as (est & c & g & pred & Hest & Hfit & Hpred & Hscore & ->).
  destruct (accuracy_score_unit_interval _ _ _ Hne Hscore)
    as (q & -> & Hq).
  exists est, c, g, pred, q.
  unfold sklearn.accuracy_score in Hscore.
  destruct (decide _) as [Hlen|]; [|done].
  split_and!; [done | done | | done | done | done | | apply Hq | apply Hq].
  - simpl. apply lookup_insert_eq.
  - destruct (length (Y_test (self w))) eqn:Hn; [done|].
    injection Hscore as <-. reflexivity.
Qed.

Lemma benchmark_accuracy_unit_interval_witness :
  ∃ est c g pred q,
    heap (ToyRun.start NaN) !! 0 = Some est ∧
    clf_fit (MLLib := Toy.lib NaN) (est_class est)
      ["bar"; "foo"; "bar"; "baz"] ["female"; "male"; "female"; "brand"] 7
      = (Ok c, g) ∧
    heap (__benchmark 0 (ToyRun.start NaN)).2 !! 0
      = Some {| est_class := est_class est; coef_ := Some c |} ∧
    clf_predict (MLLib := Toy.lib NaN) c ["foo"] = Ok pred ∧
    length pred = 1 ∧
    Fin 1 = Fin q ∧
    (q == Z.of_nat (sklearn.correct ["male"] pred) # Pos.of_nat 1)%Q ∧
    (0 <= q)%Q ∧ (q <= 1)%Q.
Proof.
  apply (benchmark_accuracy_unit_interval (H := Toy.lib NaN) 0
           (ToyRun.start NaN) (Fin 1)
           (__benchmark 0 (ToyRun.start NaN)).2).
  - discriminate.
  - reflexivity.
Defined.

(** ** The best-model refit *)

Section refit.
Context `{MLLib}.

(** The refit, step by step, once the vectorizer and the classifier have
    done their part: the outcome is decided by [accuracy_score]. *)
Lemma run_best_model_run best_params best_clf w clf est tf train_X test_X
    c g pred :
  tfidf_fit_transform
    {| stop_words :=
         default PNone (Py.get best_params "vect__stop_words") |}
    (text_col (train (self w))) = Ok (tf, train_X) →
  tfidf_transform tf (text_col (test (self w))) = Ok test_X →
  getitem (__clfs (self w)) best_clf = Ok clf →
  heap w !! clf = Some est →
  clf_fit (est_class est) train_X (gender_col (train (self w)))
    (np_random w) = (Ok c, g) →
  clf_predict c test_X = Ok pred →
  __run_best_model best_params best_clf w =
    (score ← sklearn.accuracy_score (gender_col (test (self w))) pred;
     Ok (score, clf),
     {| self := self w;
        heap := <[clf := {| est_class := est_class est;
                            coef_ := Some c |}]> (heap w);
        np_random := g |}).
Proof.
  intros Htf Htest Hget Hclf Hc Hpred. unfold __run_best_model.
  do 2 (erewrite bind_run by reflexivity; cbv beta).
  rewrite Htf. erewrite bind_run by reflexivity; cbv beta iota.
  rewrite Htest. do 2 (erewrite bind_run by reflexivity; cbv beta).
  rewrite Hget. erewrite bind_run by reflexivity; cbv beta.
  erewrite bind_run by (rewrite fit_run, Hclf, Hc; reflexivity).
  cbv beta.
  erewrite bind_run; cycle 1.
  { rewrite predict_run. simpl. rewrite lookup_insert_eq. simpl.
    by rewrite Hpred. }
  cbv beta.
  destruct (sklearn.accuracy_score _ _) as [score|e]; reflexivity.
Qed.

Lemma accuracy_score_returns y_true y_pred :
  length y_pred = length y_true →
  ∃ score, sklearn.accuracy_score y_true y_pred = Ok score.
Proof.
  intros Hlen. unfold sklearn.accuracy_score.
  rewrite decide_True by done. destruct (length y_true); eauto.
Qed.

End refit.

(** C5.  Given the stop-word setting the optimizer chose and the name of
    the selected classifier, [__run_best_model] builds a TF-IDF vectorizer
    with that setting, fits it on the training texts, fits the registered
    classifier on the resulting features of the whole training partition,
    predicts the held-out test partition, and returns the accuracy of those
    predictions together with the classifier, which is now the fitted
    object. *)
Theorem run_best_model_refits `{MLLib} (w : world)
    (best_params : dict pyval) (stop : pyval) (best_clf : string)
    (clf : loc) (est : estimator) tf train_X test_X c g pred :
  Py.get best_params "vect__stop_words" = Some stop →
  getitem (__clfs (self w)) best_clf = Ok clf →
  heap w !! clf = Some est →
  tfidf_fit_transform {| stop_words := stop |} (text_col (train (self w)))
    = Ok (tf, train_X) →
  tfidf_transform tf (text_col (test (self w))) = Ok test_X →
  clf_fit (est_class est) train_X (gender_col (train (self w)))
    (np_random w) = (Ok c, g) →
  clf_predict c test_X = Ok pred →
  length pred = length (test (self w)) →
  ∃ score w',
    __run_best_model best_params best_clf w = (Ok (score, clf), w') ∧
    sklearn.accuracy_score (gender_col (test (self w))) pred = Ok score ∧
    heap w' !! clf
      = Some {| est_class := est_class est; coef_ := Some c |}.
Proof.
  intros Hstop Hget Hclf Htf Htest Hc Hpred Hlen.
  destruct (accuracy_score_returns (gender_col (test (self w))) pred)
    as [score Hscore].
  { unfold gender_col. by rewrite length_fmap. }
  eexists score, _. split_and!; [|done|].
  - erewrite run_best_model_run; [|by rewrite Hstop|done..].
    by rewrite Hscore.
  - simpl. by rewrite lookup_insert_eq.
Qed.

Lemma run_best_model_refits_witness :
  ∃ score w',
    __run_best_model [("vect__stop_words", PStr "english")] "SVM"
      (ToyRun.start NaN) = (Ok (score, 0), w') ∧
    sklearn.accuracy_score ["male"] ["male"] = Ok score ∧
    heap w' !! 0
      = Some (@Build_estimator (Toy.lib NaN) SGDClassifier
                (Some [("bar", "female"); ("foo", "male");
                       ("bar", "female"); ("baz", "brand")])).
Proof.
  apply (run_best_model_refits (H := Toy.lib NaN) (ToyRun.start NaN)
           [("vect__stop_words", PStr "english")] (PStr "english") "SVM" 0
           {| est_class := SGDClassifier; coef_ := None |}
           (PStr "english") ["bar"; "foo"; "bar"; "baz"] ["foo"]
           [("bar", "female"); ("foo", "male");
            ("bar", "female"); ("baz", "brand")] 8 ["male"]);
    reflexivity.
Defined.

(** C10.  A parameter mapping without the key [vect__stop_words] raises no
    error of its own: [best_params.get] yields [None], so the call behaves
    exactly as with an explicit [None], building the TF-IDF vectorizer
    without stop-word filtering; and when the library calls then succeed
    it fits, predicts and returns the score and the classifier. *)
Theorem run_best_model_missing_key `{MLLib} (w : world)
    (best_params : dict pyval) (best_clf : string) :
  Py.get best_params "vect__stop_words" = None →
  __run_best_model best_params best_clf w
    = __run_best_model [("vect__stop_words", PNone)] best_clf w ∧
  ∀ clf est tf train_X test_X c g pred,
    getitem (__clfs (self w)) best_clf = Ok clf →
    heap w !! clf = Some est →
    tfidf_fit_transform {| stop_words := PNone |}
      (text_col (train (self w))) = Ok (tf, train_X) →
    tfidf_transform tf (text_col (test (self w))) = Ok test_X →
    clf_fit (est_class est) train_X (gender_col (train (self w)))
      (np_random w) = (Ok c, g) →
    clf_predict c test_X = Ok pred →
    length pred = length (test (self w)) →
    ∃ score w',
      __run_best_model best_params best_clf w = (Ok (score, clf), w') ∧
      sklearn.accuracy_score (gender_col (test (self w))) pred = Ok score.
Proof.
  intros Hnone. split.
  - unfold __run_best_model. by rewrite Hnone.
  - intros clf est tf train_X test_X c g pred Hget Hclf Htf Htest Hc Hpred
      Hlen.
    destruct (accuracy_score_returns (gender_col (test (self w))) pred)
      as [score Hscore].
    { unfold gender_col. by rewrite length_fmap. }
    eexists score, _. split; [|done].
    erewrite run_best_model_run; [|by rewrite Hnone|done..].
    by rewrite Hscore.
Qed.

Lemma run_best_model_missing_key_witness :
  __run_best_model [] "SVM" (ToyRun.start NaN)
    = __run_best_model [("vect__stop_words", PNone)] "SVM"
        (ToyRun.start NaN) ∧
  ∃ score w',
    __run_best_model [] "SVM" (ToyRun.start NaN) = (Ok (score, 0), w') ∧
    sklearn.accuracy_score ["male"] ["male"] = Ok score.
Proof.
  destruct (run_best_model_missing_key (H := Toy.lib NaN)
              (ToyRun.start NaN) [] "SVM" eq_refl) as [Heq Hreturns].
  split; [exact Heq|].
  apply (Hreturns 0 {| est_class := SGDClassifier; coef_ := None |}
           PNone ["bar"; "foo"; "bar"; "baz"] ["foo"]
           [("bar", "female"); ("foo", "male");
            ("bar", "female"); ("baz", "brand")] 8 ["male"]);
    reflexivity.
Defined.

(** ** One-hot label encoding *)

Lemma to_categorical_run (y : list nat) (num_classes : nat) :
  Forall (λ c, c < num_classes) y →
  keras.to_categorical y num_classes = Ok (keras.one_hot num_classes <$> y).
Proof.
  unfold keras.to_categorical.
  induction 1 as [|c y Hc _ IH]; [done|].
  cbn. rewrite decide_True by done. cbn.
  unfold keras.to_categorical in IH. by rewrite IH.
Qed.

Lemma one_hot_length (num_classes c : nat) :
  length (keras.one_hot num_classes c) = num_classes.
Proof. unfold keras.one_hot. by rewrite length_fmap, length_seq. Qed.

Lemma decode_one_hot_3 (c : nat) :
  c < 3 → decode_one_hot (keras.one_hot 3 c) = Ok c.
Proof.
  intros Hc. destruct c as [|[|[|c]]]; [reflexivity.. | lia].
Qed.

(** C9.  Every label code among 0, 1 and 2 is encoded by
    [to_categorical(., 3)] as a row of three entries, and decoding that row
    gives the code back; so a whole column of such codes survives the
    round trip. *)
Theorem one_hot_round_trip (y : list nat) :
  Forall (λ c, c < 3) y →
  ∃ y_matrix,
    keras.to_categorical y 3 = Ok y_matrix ∧
    Forall (λ row, length row = 3) y_matrix ∧
    mapM decode_one_hot y_matrix = Ok y.
Proof.
  intros Hy. exists (keras.one_hot 3 <$> y).
  split_and!; [by apply to_categorical_run | |].
  - apply Forall_fmap, Forall_forall. intros c _. apply one_hot_length.
  - induction Hy as [|c y Hc _ IH]; [done|].
    cbn [fmap list_fmap mapM]. rewrite decode_one_hot_3 by done.
    cbn. cbn in IH. by rewrite IH.
Qed.

Lemma one_hot_round_trip_witness :
  ∃ y_matrix,
    keras.to_categorical [0; 1; 2] 3 = Ok y_matrix ∧
    Forall (λ row, length row = 3) y_matrix ∧
    mapM decode_one_hot y_matrix = Ok [0; 1; 2].
Proof.
  apply (one_hot_round_trip [0; 1; 2]).
  repeat constructor.
Defined.

Example one_hot_of_1 : keras.one_hot 3 1 = [0%Q; 1%Q; 0%Q].
Proof. reflexivity. Qed.

(** ** The hyperparameter search *)

Section search.
Context `{MLLib}.

Lemma better_irrefl s : sklearn.better s s = false.
Proof.
  destruct s as [|q]; [done|]. simpl. apply negb_false_iff.
  apply Qle_bool_iff, Qle_refl.
Qed.

Lemma better_asym a b :
  sklearn.better a b = true → sklearn.better b a = false.
Proof.
  destruct a as [|x], b as [|y]; simpl; try done.
  intros Hxy. apply negb_true_iff in Hxy. apply negb_false_iff.
  apply Qle_bool_iff. apply Qlt_le_weak, Qnot_le_lt.
  intros Hle. apply Qle_bool_iff in Hle. congruence.
Qed.

(** The grid of [optimize]: one key, two values, hence two candidates. *)
Lemma optimize_candidates :
  sklearn.ParameterGrid [("vect__stop_words", [PNone; PStr "english"])]
  = [[("vect__stop_words", PNone)];
     [("vect__stop_words", PStr "english")]].
Proof. reflexivity. Qed.

Lemma GridSearchCV_fit_run best_func w est s_none g1 s_english g2 tf X_all
    c g3 :
  let X := text_col (train (self w)) in
  let y := gender_col (train (self w)) in
  let best :=
    if sklearn.better s_english s_none then PStr "english" else PNone in
  heap w !! best_func = Some est →
  cross_val_mean accuracy {| stop_words := PNone |} (est_class est) X y
    (np_random w) = (Ok s_none, g1) →
  cross_val_mean accuracy {| stop_words := PStr "english" |}
    (est_class est) X y g1 = (Ok s_english, g2) →
  tfidf_fit_transform {| stop_words := best |} X = Ok (tf, X_all) →
  clf_fit (est_class est) X_all y g2 = (Ok c, g3) →
  GridSearchCV_fit {| stop_words := PNone |} best_func
    [("vect__stop_words", [PNone; PStr "english"])] accuracy X y w
  = (Ok {| best_params_ := [("vect__stop_words", best)];
           best_score_ :=
             if sklearn.better s_english s_none then s_english
             else s_none |},
     {| self := self w; heap := heap w; np_random := g3 |}).
Proof.
  intros X y best Hclf Hnone Henglish Htf Hc.
  unfold GridSearchCV_fit.
  erewrite bind_run by (unfold deref; rewrite Hclf; reflexivity).
  cbv beta. rewrite optimize_candidates.
  erewrite bind_run; cycle 1.
  { cbn [mapM].
    erewrite bind_run; cycle 1.
    { erewrite bind_run by reflexivity. cbv beta.
      erewrite bind_run; [reflexivity|].
      unfold random. rewrite Hnone. reflexivity. }
    cbv beta.
    erewrite bind_run; cycle 1.
    { erewrite bind_run; cycle 1.
      { erewrite bind_run by reflexivity. cbv beta.
        erewrite bind_run; [reflexivity|].
        unfold random. cbn [np_random]. rewrite Henglish.
        reflexivity. }
      cbv beta. reflexivity. }
    cbv beta. reflexivity. }
  cbv beta iota. cbn [sklearn.best_from snd fst].
  subst best. destruct (sklearn.better s_english s_none);
    cbn [fst snd];
    (erewrite bind_run by reflexivity); cbv beta;
    rewrite Htf; (erewrite bind_run by reflexivity); cbv beta iota;
    (erewrite bind_run
       by (unfold random; cbn [np_random]; rewrite Hc; reflexivity));
    reflexivity.
Qed.

End search.

(** C7.  [optimize] hands the grid search one hyperparameter,
    [vect__stop_words], with the two values [None] and ['english'], so the
    search has exactly two candidates.  Each is a new TF-IDF vectorizer
    with that stop-word setting in front of a clone of the classifier, and
    is scored by cross-validated accuracy.  [optimize] returns the
    parameters of the candidate no other candidate beats (the earlier one on
    a tie), after the search has refitted a clone with them; the registry
    object itself is not touched. *)
Theorem optimize_searches_stop_words `{MLLib} (best_func : loc) (w : world)
    (est : estimator) s_none g1 s_english g2 tf X_all c g3 :
  let X := text_col (train (self w)) in
  let y := gender_col (train (self w)) in
  let english_wins := sklearn.better s_english s_none in
  let best := if english_wins then PStr "english" else PNone in
  let best_score := if english_wins then s_english else s_none in
  heap w !! best_func = Some est →
  cross_val_mean accuracy {| stop_words := PNone |} (est_class est) X y
    (np_random w) = (Ok s_none, g1) →
  cross_val_mean accuracy {| stop_words := PStr "english" |}
    (est_class est) X y g1 = (Ok s_english, g2) →
  tfidf_fit_transform {| stop_words := best |} X = Ok (tf, X_all) →
  clf_fit (est_class est) X_all y g2 = (Ok c, g3) →
  sklearn.ParameterGrid [("vect__stop_words", [PNone; PStr "english"])]
    = [[("vect__stop_words", PNone)];
       [("vect__stop_words", PStr "english")]] ∧
  optimize best_func w
    = (Ok [("vect__stop_words", best)],
       {| self := self w; heap := heap w; np_random := g3 |}) ∧
  sklearn.better s_none best_score = false ∧
  sklearn.better s_english best_score = false.
Proof.
  intros X y english_wins best best_score Hclf Hnone Henglish Htf Hc.
  split_and!; [done | | |].
  - unfold optimize. erewrite bind_run by reflexivity; cbv beta.
    erewrite bind_run by (by eapply GridSearchCV_fit_run).
    reflexivity.
  - subst best_score english_wins.
    destruct (sklearn.better s_english s_none) eqn:Hb;
      [by apply better_asym | apply better_irrefl].
  - subst best_score english_wins.
    destruct (sklearn.better s_english s_none) eqn:Hb;
      [apply better_irrefl | done].
Qed.

Lemma optimize_searches_stop_words_witness :
  optimize 0 (ToyRun.start NaN)
  = (Ok [("vect__stop_words", PStr "english")],
     {| self := self (ToyRun.start NaN); heap := heap (ToyRun.start NaN);
        np_random := 10 |}).
Proof.
  apply (optimize_searches_stop_words (H := Toy.lib NaN) 0
           (ToyRun.start NaN)
           {| est_class := SGDClassifier; coef_ := None |}
           (Fin (1 # 2)) 8 (Fin (3 # 4)) 9 (PStr "english")
           ["bar"; "foo"; "bar"; "baz"]
           [("bar", "female"); ("foo", "male");
            ("bar", "female"); ("baz", "brand")] 10);
    reflexivity.
Defined.

(** ** The neural text classifier *)

Section neural.
Context `{MLLib}.

Lemma build_matrix_run w x_train x_test codes_train codes_test :
  let encoder := sklearn.LabelEncoder_fit (Y_train (self w)) in
  texts_to_matrix (train_tokenizer w) (text_col (train (self w)))
    mode_count = Ok x_train →
  texts_to_matrix (train_tokenizer w) (text_col (test (self w)))
    mode_count = Ok x_test →
  sklearn.LabelEncoder_transform encoder (Y_train (self w))
    = Ok codes_train →
  sklearn.LabelEncoder_transform encoder (Y_test (self w))
    = Ok codes_test →
  Forall (λ c, c < 3) codes_train →
  Forall (λ c, c < 3) codes_test →
  build_matrix w
  = (Ok (x_train, x_test, keras.one_hot 3 <$> codes_train,
         keras.one_hot 3 <$> codes_test),
     (set_tokenizer (Some (train_tokenizer w))
        (set_lb_make (Some encoder) w).2).2).
Proof.
  intros encoder Hxtrain Hxtest Hytrain Hytest Hctrain Hctest.
  unfold build_matrix.
  repeat (erewrite bind_run by reflexivity; cbv beta zeta).
  cbn [self set_lb_make snd train test Y_train Y_test].
  change (fit_on_texts _ _) with (train_tokenizer w).
  fold encoder. rewrite Hxtrain, Hxtest, Hytrain.
  repeat (erewrite bind_run by reflexivity; cbv beta zeta).
  cbn [self set_lb_make snd train test Y_train Y_test].
  rewrite Hytest.
  repeat (erewrite bind_run by reflexivity; cbv beta zeta).
  rewrite !to_categorical_run by done.
  repeat (erewrite bind_run by reflexivity; cbv beta zeta).
  reflexivity.
Qed.

End neural.

(** C6.  [train_sequential] tokenizes with a vocabulary cap of 2000 words,
    fitted on the training texts only, and turns the training and the test
    texts into count matrices; it encodes the gender labels as rows of
    exactly three entries; and it trains, for 5 epochs, with the binary
    cross-entropy loss and the Adam optimizer, a network of two hidden
    layers (6 units each) followed by a 3-unit output layer.  It returns
    that network and the accuracy it measures on the test matrices. *)
Theorem train_sequential_configuration `{MLLib} (w : world)
    (x_train x_test : ndarray) (codes_train codes_test : list nat)
    (wts : net_weights) (g : rng) :
  let encoder := sklearn.LabelEncoder_fit (Y_train (self w)) in
  let index := tokenizer_fit (text_col (train (self w))) in
  let y_train := keras.one_hot 3 <$> codes_train in
  let y_test := keras.one_hot 3 <$> codes_test in
  tokenizer_matrix (Some 2000) index (text_col (train (self w))) mode_count
    = Ok x_train →
  tokenizer_matrix (Some 2000) index (text_col (test (self w))) mode_count
    = Ok x_test →
  sklearn.LabelEncoder_transform encoder (Y_train (self w))
    = Ok codes_train →
  sklearn.LabelEncoder_transform encoder (Y_test (self w))
    = Ok codes_test →
  Forall (λ c, c < 3) codes_train →
  Forall (λ c, c < 3) codes_test →
  keras_fit network_layers "binary_crossentropy" "adam" x_train y_train 5
    (np_random w) = (Ok wts, g) →
  ∃ model w',
    train_sequential w
      = (Ok (model,
             keras_eval_metric accuracy network_layers wts x_test y_test),
         w') ∧
    tokenizer (self w')
      = Some {| keras.num_words := Some 2000;
                keras.fitted_index := Some index |} ∧
    Forall (λ row, length row = 3) (y_train ++ y_test) ∧
    keras.layers model = network_layers ∧
    output_dim <$> keras.layers model = [6; 6; 3] ∧
    keras.loss model = Some "binary_crossentropy" ∧
    keras.optimizer model = Some "adam" ∧
    keras.weights model = Some wts.
Proof.
  intros encoder index y_train y_test Hxtrain Hxtest Hytrain Hytest
    Hctrain Hctest Hfit.
  eexists _, _. split_and!; cycle 1.
  8: { unfold train_sequential.
       erewrite bind_run by (by apply build_matrix_run).
       cbv beta iota.
       erewrite bind_run; cycle 1.
       { unfold Sequential_fit. cbn [compile add keras.loss keras.optimizer
           keras.layers Sequential_new app].
         erewrite bind_run; [reflexivity|].
         unfold random. cbn [np_random set_tokenizer set_lb_make snd].
         fold network_layers y_train. rewrite Hfit. reflexivity. }
       cbv beta. reflexivity. }
  - reflexivity.
  - apply Forall_app. split; apply Forall_fmap, Forall_forall;
      intros c _; apply one_hot_length.
  - reflexivity.
  - reflexivity.
  - reflexivity.
  - reflexivity.
  - reflexivity.
Qed.

Lemma train_sequential_configuration_witness :
  ∃ model w',
    train_sequential (ToyRun.start (Fin (1 # 2)))
      = (Ok (model, Fin (1 # 2)), w') ∧
    keras.layers model = network_layers ∧
    keras.loss model = Some "binary_crossentropy".
Proof.
  destruct (train_sequential_configuration (H := Toy.lib (Fin (1 # 2)))
              (ToyRun.start (Fin (1 # 2)))
              ["bar"; "foo"; "bar"; "baz"] ["foo"] [1; 2; 1; 0] [2] () 8)
    as (model & w' & Hrun & _ & _ & Hlayers & _ & Hloss & _);
    [reflexivity | reflexivity | reflexivity | reflexivity
    | repeat constructor | repeat constructor | reflexivity |].
  by exists model, w'.
Defined.

(** ** The driver *)

Lemma toy_stages acc :
  benchmark_all (items (__clfs (self (ToyRun.start acc)))) []
    (ToyRun.start acc)
    = (Ok [("SVM", Fin 1); ("Perceptron", Fin 1)], ToyRun.benchmarked acc) ∧
  __get_best_score [("SVM", Fin 1); ("Perceptron", Fin 1)] = Ok "SVM" ∧
  getitem (__clfs (self (ToyRun.benchmarked acc))) "SVM" = Ok 0 ∧
  optimize 0 (ToyRun.benchmarked acc)
    = (Ok ToyRun.english, ToyRun.optimized acc) ∧
  __run_best_model ToyRun.english "SVM" (ToyRun.optimized acc)
    = (Ok (Fin 1, 0), ToyRun.refitted acc) ∧
  train_sequential (ToyRun.refitted acc)
    = (Ok (ToyRun.network acc, acc), ToyRun.trained acc).
Proof. split_and!; reflexivity. Qed.


Section driver.
Context `{MLLib}.

Lemma float_ge_of_lt a b : float_lt a b → float_ge b a = true.
Proof.
  destruct a, b; simpl; try done. intros Hlt.
  by apply Qle_bool_iff, Qlt_le_weak.
Qed.

Lemma float_ge_of_eq a b : float_eq a b → float_ge b a = true.
Proof.
  destruct a, b; simpl; try done. intros Heq.
  apply Qle_bool_iff. rewrite Heq. apply Qle_refl.
Qed.

Lemma float_ge_of_gt a b : float_lt b a → float_ge b a = false.
Proof.
  destruct a as [|x], b as [|y]; simpl; try done. intros Hlt.
  apply not_true_is_false. intros Hle. apply Qle_bool_iff in Hle.
  by apply (Qlt_not_le _ _ Hlt).
Qed.

(** [train_models], once every stage has returned. *)
Lemma train_models_run w scores w1 best best_func best_params w2
    simple_score simple_model w3 keras_model keras_score w4 :
  benchmark_all (items (__clfs (self w))) [] w = (Ok scores, w1) →
  __get_best_score scores = Ok best →
  getitem (__clfs (self w1)) best = Ok best_func →
  optimize best_func w1 = (Ok best_params, w2) →
  __run_best_model best_params best w2
    = (Ok (simple_score, simple_model), w3) →
  train_sequential w3 = (Ok (keras_model, keras_score), w4) →
  train_models w
  = (Ok (if float_ge keras_score simple_score
         then KerasModel keras_model
         else ClassicalModel simple_model), w4).
Proof.
  intros Hscores Hbest Hfunc Hopt Hrefit Hnet. unfold train_models.
  erewrite bind_run by reflexivity; cbv beta.
  erewrite bind_run by exact Hscores; cbv beta.
  rewrite Hbest. do 2 (erewrite bind_run by reflexivity; cbv beta).
  rewrite Hfunc. erewrite bind_run by reflexivity; cbv beta.
  erewrite bind_run by exact Hopt; cbv beta.
  erewrite bind_run by exact Hrefit; cbv beta iota.
  erewrite bind_run by exact Hnet; cbv beta iota.
  by destruct (float_ge keras_score simple_score).
Qed.

End driver.

(** C1, as amended.  Once the tuned classical model's accuracy and the
    network's accuracy are both computed, [train_models] returns the
    network when its accuracy is higher, the classical model when the
    classical accuracy is higher, and the network when the two accuracies
    are equal: the test is [keras_score >= simple_score]. *)
Theorem train_models_returns_best `{MLLib} (w : world) scores w1 best
    best_func best_params w2 simple_score simple_model w3 keras_model
    keras_score w4 :
  benchmark_all (items (__clfs (self w))) [] w = (Ok scores, w1) →
  __get_best_score scores = Ok best →
  getitem (__clfs (self w1)) best = Ok best_func →
  optimize best_func w1 = (Ok best_params, w2) →
  __run_best_model best_params best w2
    = (Ok (simple_score, simple_model), w3) →
  train_sequential w3 = (Ok (keras_model, keras_score), w4) →
  ∃ returned,
    train_models w = (Ok returned, w4) ∧
    (float_lt simple_score keras_score →
     returned = KerasModel keras_model) ∧
    (float_lt keras_score simple_score →
     returned = ClassicalModel simple_model) ∧
    (float_eq simple_score keras_score → returned = KerasModel keras_model).
Proof.
  intros Hscores Hbest Hfunc Hopt Hrefit Hnet.
  eexists. split; [by eapply train_models_run|].
  split_and!; intros Hcmp.
  - by rewrite (float_ge_of_lt _ _ Hcmp).
  - by rewrite (float_ge_of_gt _ _ Hcmp).
  - by rewrite (float_ge_of_eq _ _ Hcmp).
Qed.

Lemma train_models_returns_best_witness :
  ∃ returned,
    train_models (ToyRun.start (Fin (1 # 2)))
      = (Ok returned, ToyRun.trained (Fin (1 # 2))) ∧
    returned = ClassicalModel 0.
Proof.
  destruct (toy_stages (Fin (1 # 2)))
    as (Hscores & Hbest & Hfunc & Hopt & Hrefit & Hnet).
  destruct (train_models_returns_best (H := Toy.lib (Fin (1 # 2))) _ _ _ _
              _ _ _ _ _ _ _ _ _ Hscores Hbest Hfunc Hopt Hrefit Hnet)
    as (returned & Hrun & _ & Hclassical & _).
  exists returned. split; [exact Hrun|].
  apply Hclassical. reflexivity.
Defined.

(** The specification gives ties to the classical model.  Here both
    accuracies are 1 and the network is returned. *)
Lemma train_models_tie_returns_network :
  __run_best_model ToyRun.english "SVM" (ToyRun.optimized (Fin 1))
    = (Ok (Fin 1, 0), ToyRun.refitted (Fin 1)) ∧
  train_sequential (ToyRun.refitted (Fin 1))
    = (Ok (ToyRun.network (Fin 1), Fin 1), ToyRun.trained (Fin 1)) ∧
  float_eq (Fin 1) (Fin 1) ∧
  train_models (ToyRun.start (Fin 1))
    = (Ok (KerasModel (ToyRun.network (Fin 1))),
       ToyRun.trained (Fin 1)) ∧
  KerasModel (ToyRun.network (Fin 1)) ≠ ClassicalModel 0.
Proof. split_and!; [reflexivity.. | discriminate]. Qed.

(** * Further properties of the code *)

(** ** Dictionaries and the selection *)

Lemma get_setitem_eq {V} (d : dict V) key v :
  Py.get (setitem d key v) key = Some v.
Proof.
  induction d as [|[k v'] d IH]; simpl.
  - by rewrite decide_True.
  - destruct (decide (k = key)) as [->|Hne]; simpl.
    + by rewrite decide_True.
    + by rewrite decide_False.
Qed.

Lemma get_setitem_ne {V} (d : dict V) key key' v :
  key ≠ key' → Py.get (setitem d key v) key' = Py.get d key'.
Proof.
  intros Hne. induction d as [|[k v'] d IH]; simpl.
  - by rewrite decide_False.
  - destruct (decide (k = key)) as [->|Hk]; simpl.
    + by rewrite !decide_False.
    + destruct (decide (k = key')); [done | apply IH].
Qed.

Lemma setitem_fresh {V} (d : dict V) key v :
  key ∉ d.*1 → setitem d key v = d ++ [(key, v)].
Proof.
  induction d as [|[k v'] d IH]; simpl; [done|].
  intros Hnot. apply not_elem_of_cons in Hnot as [Hne Hnot].
  rewrite decide_False by done. by rewrite IH.
Qed.

Lemma setitem_keys {V} (d : dict V) key v :
  (setitem d key v).*1 ⊆ key :: d.*1.
Proof.
  induction d as [|[k v'] d IH]; simpl; [done|].
  destruct (decide (k = key)) as [->|Hne]; simpl.
  - intros x Hx. by apply list_elem_of_further.
  - intros x Hx. apply elem_of_cons in Hx as [->|Hx].
    + apply list_elem_of_further, list_elem_of_here.
    + apply IH in Hx. apply elem_of_cons in Hx as [->|Hx].
      * apply list_elem_of_here.
      * by do 2 apply list_elem_of_further.
Qed.

Lemma setitem_nonempty {V} (d : dict V) key v : setitem d key v ≠ [].
Proof. destruct d as [|[k v'] d]; simpl; [done|]. by case_decide. Qed.

Lemma get_is_Some_keys {V} (d : dict V) key :
  key ∈ d.*1 → is_Some (Py.get d key).
Proof.
  induction d as [|[k v] d IH]; simpl.
  - intros Hin. by apply elem_of_nil in Hin.
  - intros Hin. destruct (decide (k = key)); [eauto|].
    apply elem_of_cons in Hin as [->|Hin]; [done | by apply IH].
Qed.

Lemma get_Some_elem {V} (d : dict V) key v :
  Py.get d key = Some v → (key, v) ∈ d.
Proof.
  induction d as [|[k v'] d IH]; simpl; [done|].
  destruct (decide (k = key)) as [->|Hne].
  - intros [= ->]. apply list_elem_of_here.
  - intros Hget. by apply list_elem_of_further, IH.
Qed.

Lemma max_from_elem {A} (key : A → pyfloat) rest :
  ∀ best, max_from key best rest ∈ best :: rest.
Proof.
  induction rest as [|x rest IH]; intros best; simpl.
  - apply list_elem_of_here.
  - destruct (float_gt (key x) (key best)).
    + apply list_elem_of_further, IH.
    + specialize (IH best). apply elem_of_cons in IH as [->|IH].
      * apply list_elem_of_here.
      * by do 2 apply list_elem_of_further.
Qed.

(** X1.  On any non-empty mapping, whatever the scores (NaN included),
    [__get_best_score] returns a name, and that name is one of the
    mapping's keys, stored with the score it was selected for. *)
Theorem get_best_score_is_key (scores : dict pyfloat) :
  scores ≠ [] →
  ∃ name score,
    __get_best_score scores = Ok name ∧
    (name, score) ∈ items scores ∧ name ∈ scores.*1.
Proof.
  destruct scores as [|first rest]; [done|]. intros _.
  pose proof (max_from_elem itemgetter_1 rest first) as Hin.
  destruct (max_from itemgetter_1 first rest) as [name score] eqn:Hbest.
  exists name, score. split_and!.
  - unfold __get_best_score, items. simpl. by rewrite Hbest.
  - done.
  - apply (list_elem_of_fmap_2 fst) in Hin. done.
Qed.

Lemma get_best_score_is_key_witness :
  ∃ name score,
    __get_best_score [("SVM", NaN); ("Perceptron", Fin (1 # 2))] = Ok name ∧
    (name, score) ∈ items [("SVM", NaN); ("Perceptron", Fin (1 # 2))] ∧
    name ∈ [("SVM", NaN); ("Perceptron", Fin (1 # 2))].*1.
Proof.
  apply (get_best_score_is_key [("SVM", NaN); ("Perceptron", Fin (1 # 2))]).
  discriminate.
Defined.

Lemma max_from_nan {A} (key : A → pyfloat) best rest :
  key best = NaN → max_from key best rest = best.
Proof.
  intros Hnan. induction rest as [|x rest IH]; simpl; [done|].
  rewrite Hnan. by destruct (key x).
Qed.

Lemma max_from_finite {A} (key : A → pyfloat) rest :
  ∀ best, float_finite (key best) →
          float_finite (key (max_from key best rest)).
Proof.
  induction rest as [|x rest IH]; intros best Hfin; simpl; [done|].
  destruct (float_gt (key x) (key best)) eqn:Hgt; [|by apply IH].
  apply IH. destruct (key x); [done | by eexists].
Qed.

(** X2.  NaN never wins a comparison in [max]: when the first score of the
    mapping is NaN, [__get_best_score] returns the first name whatever the
    other scores are; when the first score is a number, the selected
    entry's score is a number too, so a later NaN is never selected. *)
Theorem get_best_score_nan (name : string) (rest : dict pyfloat) :
  __get_best_score ((name, NaN) :: rest) = Ok name ∧
  ∀ q, ∃ name' q',
    __get_best_score ((name, Fin q) :: rest) = Ok name' ∧
    (name', Fin q') ∈ items ((name, Fin q) :: rest).
Proof.
  split.
  - unfold __get_best_score, items. simpl.
    by rewrite (max_from_nan itemgetter_1 (name, NaN) rest).
  - intros q.
    pose proof (max_from_elem itemgetter_1 rest (name, Fin q)) as Hin.
    pose proof (max_from_finite itemgetter_1 rest (name, Fin q)) as Hfin.
    destruct (max_from itemgetter_1 (name, Fin q) rest)
      as [name' score] eqn:Hbest.
    destruct Hfin as [q' Hq']; [by eexists|]. simpl in Hq'. subst score.
    exists name', q'. split; [|done].
    unfold __get_best_score, items. simpl. by rewrite Hbest.
Qed.

(** ** Accuracy at its extremes *)

Lemma correct_same y : sklearn.correct y y = length y.
Proof.
  unfold sklearn.correct. induction y as [|a y IH]; [done|].
  change (zip (a :: y) (a :: y)) with ((a, a) :: zip y y).
  rewrite filter_cons_True by done. simpl. by rewrite IH.
Qed.

Lemma correct_cons a b y p :
  sklearn.correct (a :: y) (b :: p)
  = (if decide (a = b) then 1 else 0) + sklearn.correct y p.
Proof.
  unfold sklearn.correct.
  change (zip (a :: y) (b :: p)) with ((a, b) :: zip y p).
  destruct (decide (a = b)) as [Heq|Hne].
  - by rewrite filter_cons_True.
  - by rewrite filter_cons_False.
Qed.

Lemma correct_full y : ∀ p,
  length p = length y → sklearn.correct y p = length y → p = y.
Proof.
  induction y as [|a y IH]; intros [|b p] Hlen; simpl in Hlen; try done.
  rewrite correct_cons. pose proof (correct_le y p) as Hle. simpl.
  destruct (decide (a = b)) as [->|Hne]; [|lia].
  intros Hc. f_equal. apply IH; lia.
Qed.

Lemma correct_none y : ∀ p,
  length p = length y →
  sklearn.correct y p = 0 ↔ Forall2 (λ a b, a ≠ b) y p.
Proof.
  induction y as [|a y IH]; intros [|b p] Hlen; simpl in Hlen; try done.
  rewrite correct_cons. destruct (decide (a = b)) as [->|Hne].
  - split; [done|]. intros Hall. by inversion Hall.
  - rewrite Nat.add_0_l, IH by lia. split.
    + intros Hall. by constructor.
    + intros Hall. by inversion Hall.
Qed.

Lemma accuracy_score_extremes y_true y_pred score :
  y_true ≠ [] →
  sklearn.accuracy_score y_true y_pred = Ok score →
  length y_pred = length y_true ∧
  (float_eq score (Fin 1) ↔ y_pred = y_true) ∧
  (float_eq score (Fin 0) ↔ Forall2 (λ a b, a ≠ b) y_true y_pred).
Proof.
  intros Hne. unfold sklearn.accuracy_score.
  destruct (decide _) as [Hlen|]; [|done].
  destruct (length y_true) as [|n] eqn:Hn; [by destruct y_true|].
  intros [= <-]. split; [lia|].
  assert (Z.pos (Pos.of_nat (S n)) = Z.of_nat (S n)) as Hpos.
  { by rewrite <- positive_nat_Z, Nat2Pos.id. }
  simpl. unfold Qeq. cbn [Qnum Qden]. rewrite Hpos. split.
  - split.
    + intros Hq. apply correct_full; lia.
    + intros ->. rewrite correct_same. lia.
  - rewrite <- correct_none by lia. lia.
Qed.

(** X3.  When a benchmark on a non-empty test partition returns, the score
    is computed from the predictions of the classifier object as it was
    just fitted: one prediction per test label, a score of 1 exactly when
    every prediction equals its label, and a score of 0 exactly when none
    does. *)
Theorem benchmark_score_extremes `{MLLib} (clf : loc) (w : world)
    (score : pyfloat) (w' : world) :
  Y_test (self w) ≠ [] →
  __benchmark clf w = (Ok score, w') →
  ∃ est c pred,
    heap w' !! clf = Some est ∧ coef_ est = Some c ∧
    clf_predict c (X_test (self w)) = Ok pred ∧
    length pred = length (Y_test (self w)) ∧
    (float_eq score (Fin 1) ↔ pred = Y_test (self w)) ∧
    (float_eq score (Fin 0)
     ↔ Forall2 (λ label p, label ≠ p) (Y_test (self w)) pred).
Proof.
  intros Hne Hrun.
  apply benchmark_Ok_inv in Hrun
    as (est & c & g & pred & Hclf & _ & Hpred & Hscore & ->).
  destruct (accuracy_score_extremes _ _ _ Hne Hscore) as (Hlen & H1 & H0).
  exists {| est_class := est_class est; coef_ := Some c |}, c, pred.
  split_and!; [|done..].
  simpl. by rewrite lookup_insert_eq.
Qed.

Lemma benchmark_score_extremes_witness :
  ∃ est c pred,
    heap (__benchmark 0 (ToyRun.start NaN)).2 !! 0 = Some est ∧
    coef_ est = Some c ∧
    clf_predict c (X_test (self (ToyRun.start NaN))) = Ok pred ∧
    length pred = length (Y_test (self (ToyRun.start NaN))) ∧
    (float_eq (Fin 1) (Fin 1) ↔ pred = Y_test (self (ToyRun.start NaN))) ∧
    (float_eq (Fin 1) (Fin 0)
     ↔ Forall2 (λ label p, label ≠ p)
         (Y_test (self (ToyRun.start NaN))) pred).
Proof.
  apply (benchmark_score_extremes (H := Toy.lib NaN) 0 (ToyRun.start NaN)
           (Fin 1) (__benchmark 0 (ToyRun.start NaN)).2).
  - discriminate.
  - reflexivity.
Defined.

(** ** The benchmark loop and the selection *)

Section loop.
Context `{MLLib}.

Lemma benchmark_all_scores_from registry : ∀ scores0 w scores w',
  NoDup (scores0.*1 ++ registry.*1) →
  Y_test (self w) ≠ [] →
  Forall unit_score scores0 →
  benchmark_all registry scores0 w = (Ok scores, w') →
  scores.*1 = scores0.*1 ++ registry.*1 ∧ Forall unit_score scores.
Proof.
  induction registry as [|[name clf] registry IH];
    intros scores0 w scores w' Hnodup Hne Hunit Hrun; simpl in *.
  - injection Hrun as <- <-. by rewrite app_nil_r.
  - apply bind_Ok_inv in Hrun as (score & w1 & Hb & Hrun).
    pose proof (benchmark_same_data clf w) as Hsame.
    rewrite Hb in Hsame. simpl in Hsame.
    assert (Y_test (self w1) = Y_test (self w)) as HY.
    { unfold same_data, fixed_attributes in Hsame.
      by injection Hsame as _ _ _ _ _ _ _ ->. }
    apply benchmark_Ok_inv in Hb
      as (est & c & g & pred & _ & _ & _ & Hscore & _).
    destruct (accuracy_score_unit_interval _ _ _ Hne Hscore)
      as (q & -> & Hq).
    assert (name ∉ scores0.*1) as Hfresh.
    { apply NoDup_app in Hnodup as (_ & Hdisj & _).
      intros Hin. apply (Hdisj name Hin). apply list_elem_of_here. }
    rewrite setitem_fresh in Hrun by done.
    apply IH in Hrun as [Hkeys Hall].
    + split; [|done]. rewrite Hkeys, fmap_app. simpl.
      by rewrite <- app_assoc.
    + rewrite fmap_app. simpl. by rewrite <- app_assoc.
    + by rewrite HY.
    + apply Forall_app. split; [done|]. constructor; [|done].
      by exists q.
Qed.

Lemma benchmark_all_keys registry : ∀ scores0 w scores w',
  benchmark_all registry scores0 w = (Ok scores, w') →
  scores.*1 ⊆ scores0.*1 ++ registry.*1 ∧
  (scores0 ≠ [] ∨ registry ≠ [] → scores ≠ []).
Proof.
  induction registry as [|[name clf] registry IH];
    intros scores0 w scores w' Hrun; simpl in *.
  - injection Hrun as <- <-. rewrite app_nil_r. split; [done|].
    by intros [|].
  - apply bind_Ok_inv in Hrun as (score & w1 & Hb & Hrun).
    apply IH in Hrun as [Hkeys Hne]. split.
    + intros x Hx. apply Hkeys in Hx.
      apply elem_of_app in Hx as [Hx|Hx].
      * apply setitem_keys in Hx. apply elem_of_cons in Hx as [->|Hx].
        -- apply elem_of_app. right. apply list_elem_of_here.
        -- apply elem_of_app. by left.
      * apply elem_of_app. right. by apply list_elem_of_further.
    + intros _. apply Hne. left. apply setitem_nonempty.
Qed.

End loop.

(** X4.  The loop of [train_models] over a registry with distinct names
    records one score per classifier, under the classifier's name and in
    the registry's order; with a non-empty test partition every recorded
    score is a number between 0 and 1, so the selection that follows never
    meets a NaN. *)
Theorem benchmark_all_scores `{MLLib} (registry : list (string * loc))
    (w : world) (scores : dict pyfloat) (w' : world) :
  NoDup registry.*1 →
  Y_test (self w) ≠ [] →
  benchmark_all registry [] w = (Ok scores, w') →
  scores.*1 = registry.*1 ∧
  Forall (λ item, ∃ q, item.2 = Fin q ∧ (0 <= q)%Q ∧ (q <= 1)%Q) scores.
Proof.
  intros Hnodup Hne Hrun.
  by apply (benchmark_all_scores_from registry [] w scores w').
Qed.

Lemma benchmark_all_scores_witness :
  [("SVM", Fin 1); ("Perceptron", Fin 1)].*1
  = (items (__clfs (self (ToyRun.start NaN)))).*1.
Proof.
  refine (proj1 (benchmark_all_scores (H := Toy.lib NaN)
           (items (__clfs (self (ToyRun.start NaN)))) (ToyRun.start NaN)
           [("SVM", Fin 1); ("Perceptron", Fin 1)]
           (ToyRun.benchmarked NaN) _ _ _)).
  - by apply (bool_decide_unpack _).
  - discriminate.
  - reflexivity.
Defined.

(** X5.  In [train_models] the two lookups that follow the loop cannot
    fail: when the registry is not empty and the loop has returned its
    scores, [__get_best_score] returns a name, that name is registered, and
    [self.__clfs[best]] finds its classifier. *)
Theorem train_models_selection_defined `{MLLib} (w : world)
    (scores : dict pyfloat) (w1 : world) :
  __clfs (self w) ≠ [] →
  benchmark_all (items (__clfs (self w))) [] w = (Ok scores, w1) →
  ∃ best clf,
    __get_best_score scores = Ok best ∧
    getitem (__clfs (self w1)) best = Ok clf ∧
    (best, clf) ∈ __clfs (self w).
Proof.
  intros Hne Hrun.
  pose proof (benchmark_all_same_data (items (__clfs (self w))) [] w)
    as Hsame.
  rewrite Hrun in Hsame. simpl in Hsame.
  assert (__clfs (self w1) = __clfs (self w)) as Hclfs.
  { unfold same_data, fixed_attributes in Hsame.
    by injection Hsame as _ _ _ -> _ _ _ _. }
  apply benchmark_all_keys in Hrun as [Hkeys Hscores]. simpl in Hkeys.
  destruct scores as [|first rest].
  { exfalso. by apply Hscores; [right|]. }
  pose proof (max_from_elem itemgetter_1 rest first) as Hin.
  destruct (max_from itemgetter_1 first rest) as [best score] eqn:Hbest.
  apply (list_elem_of_fmap_2 fst) in Hin. simpl in Hin.
  apply Hkeys in Hin.
  destruct (get_is_Some_keys (__clfs (self w)) best Hin) as [clf Hclf].
  exists best, clf. split_and!.
  - unfold __get_best_score, items. simpl. by rewrite Hbest.
  - rewrite Hclfs. unfold getitem. by rewrite Hclf.
  - by apply get_Some_elem.
Qed.

Lemma train_models_selection_defined_witness :
  ∃ best clf,
    __get_best_score [("SVM", Fin 1); ("Perceptron", Fin 1)] = Ok best ∧
    getitem (__clfs (self (ToyRun.benchmarked NaN))) best = Ok clf ∧
    (best, clf) ∈ __clfs (self (ToyRun.start NaN)).
Proof.
  apply (train_models_selection_defined (H := Toy.lib NaN)
           (ToyRun.start NaN) [("SVM", Fin 1); ("Perceptron", Fin 1)]
           (ToyRun.benchmarked NaN)).
  - discriminate.
  - reflexivity.
Defined.

(** ** The constructed object *)

Section constructed.
Context `{MLLib}.

Lemma iloc_seq (pre frame : DataFrame) :
  iloc (pre ++ frame) (seq (length pre) (length frame)) = frame.
Proof.
  unfold iloc. revert pre. induction frame as [|r frame IH]; intros pre.
  - done.
  - simpl. rewrite list_lookup_middle by done. simpl. f_equal.
    specialize (IH (pre ++ [r])).
    rewrite length_app, Nat.add_1_r, <- app_assoc in IH. exact IH.
Qed.

Lemma iloc_permutation (frame : DataFrame) positions :
  positions ≡ₚ seq 0 (length frame) → iloc frame positions ≡ₚ frame.
Proof.
  intros Hperm. unfold iloc. rewrite Hperm.
  pose proof (iloc_seq [] frame) as Hseq. unfold iloc in Hseq.
  simpl in Hseq. by rewrite Hseq.
Qed.

(** What a constructor that returns has built. *)
Lemma init_Ok_inv data_frame h g w :
  __init__ data_frame h g = Ok w →
  ∃ ind_train ind_test g' X_tr X_te,
    2 ≤ length data_frame ∧
    sklearn.train_test_split data_frame (2 # 10) g
      = (Ok (iloc data_frame ind_train, iloc data_frame ind_test), g') ∧
    ind_test ++ ind_train ≡ₚ seq 0 (length data_frame) ∧
    length ind_test = sklearn.n_test_of (2 # 10) (length data_frame) ∧
    __tf_idf_feature_extraction (iloc data_frame ind_train)
      (iloc data_frame ind_test) = Ok (X_tr, X_te) ∧
    let svm := fresh (dom h) in
    let h1 :=
      <[svm := {| est_class := SGDClassifier; coef_ := None |}]> h in
    let perceptron := fresh (dom h1) in
    w = {| self :=
             {| df := data_frame;
                train := iloc data_frame ind_train;
                test := iloc data_frame ind_test;
                __clfs := [("SVM", svm); ("Perceptron", perceptron)];
                X_train := X_tr; X_test := X_te;
                Y_train := gender_col (iloc data_frame ind_train);
                Y_test := gender_col (iloc data_frame ind_test);
                tokenizer := None; lb_make := None |};
           heap :=
             <[perceptron := {| est_class := Perceptron; coef_ := None |}]>
               h1;
           np_random := np_seed 7 |}.
Proof.
  intros Hinit.
  destruct (decide (length data_frame < 2)) as [Hsmall|Hn].
  { by rewrite init_too_small in Hinit. }
  assert (2 ≤ length data_frame) as Hn' by lia.
  destruct (train_test_split_positions data_frame g Hn')
    as (ind_train & ind_test & g' & Hsplit & Hperm & Hlen).
  unfold __init__ in Hinit. rewrite Hsplit in Hinit. simpl in Hinit.
  destruct (__tf_idf_feature_extraction _ _) as [[X_tr X_te]|] eqn:Htf;
    [|done].
  simpl in Hinit. injection Hinit as <-.
  by exists ind_train, ind_test, g', X_tr, X_te.
Qed.

End constructed.

(** X6.  A data frame with fewer than two rows cannot be split into a
    non-empty training and test partition: the constructor raises
    [ValueError], whatever the texts and the state of the libraries, and no
    object is built. *)
Theorem init_rejects_small_frame `{MLLib} (data_frame : DataFrame)
    (h : gmap loc estimator) (g : rng) :
  length data_frame < 2 → __init__ data_frame h g = Raise ValueError.
Proof.
  intros Hn. unfold __init__.
  by rewrite train_test_split_too_small.
Qed.

Lemma init_rejects_small_frame_witness :
  __init__ (H := Toy.lib NaN) [] ∅ 0 = Raise ValueError.
Proof.
  apply (init_rejects_small_frame (H := Toy.lib NaN) [] ∅ 0).
  simpl. lia.
Defined.

(** X7.  An object the constructor returns holds the data frame it was
    given; its training and test partitions together are a rearrangement
    of the frame's rows (no row lost, none duplicated) and neither is
    empty; the label attributes are the gender columns of the two
    partitions, row for row; and the feature attributes are the TF-IDF
    features of those same partitions. *)
Theorem init_partitions_rows `{MLLib} (data_frame : DataFrame)
    (h : gmap loc estimator) (g : rng) (w : world) :
  __init__ data_frame h g = Ok w →
  df (self w) = data_frame ∧
  train (self w) ++ test (self w) ≡ₚ data_frame ∧
  train (self w) ≠ [] ∧ test (self w) ≠ [] ∧
  Y_train (self w) = gender_col (train (self w)) ∧
  Y_test (self w) = gender_col (test (self w)) ∧
  length (Y_train (self w)) = length (train (self w)) ∧
  length (Y_test (self w)) = length (test (self w)) ∧
  __tf_idf_feature_extraction (train (self w)) (test (self w))
    = Ok (X_train (self w), X_test (self w)).
Proof.
  intros Hinit.
  apply init_Ok_inv in Hinit
    as (ind_train & ind_test & g' & X_tr & X_te & Hn & _ & Hperm & Hlen
        & Htf & ->).
  simpl.
  assert (Forall (λ i, i < length data_frame) (ind_test ++ ind_train))
    as Hbound.
  { rewrite Hperm. apply Forall_forall. intros i Hi.
    apply elem_of_seq in Hi. lia. }
  apply Forall_app in Hbound as [Hbtest Hbtrain].
  pose proof (n_test_of_fifth (length data_frame)) as [Hlo Hhi].
  assert (length ind_test + length ind_train = length data_frame) as Hsum.
  { by rewrite <- length_app, Hperm, length_seq. }
  split_and!; try done.
  - unfold iloc. rewrite <- omap_app. apply iloc_permutation.
    by rewrite (comm (++)).
  - intros Hnil. apply (f_equal length) in Hnil.
    rewrite iloc_length in Hnil by done. simpl in Hnil. lia.
  - intros Hnil. apply (f_equal length) in Hnil.
    rewrite iloc_length in Hnil by done. simpl in Hnil. lia.
  - unfold gender_col. by rewrite length_fmap.
  - unfold gender_col. by rewrite length_fmap.
Qed.

Lemma init_partitions_rows_witness :
  train (self (ToyRun.start NaN)) ++ test (self (ToyRun.start NaN))
  ≡ₚ Toy.frame.
Proof.
  apply (init_partitions_rows (H := Toy.lib NaN) Toy.frame ∅ 0
           (ToyRun.start NaN)).
  apply toy_init_start.
Defined.

(** X8.  An object the constructor returns registers exactly two
    classifiers, "SVM" then "Perceptron".  They are two distinct objects,
    new in the store (no object that existed before is overwritten or
    changed), an SGD classifier and a perceptron, both untrained; and the
    tokenizer and the label encoder are not set yet. *)
Theorem init_registry `{MLLib} (data_frame : DataFrame)
    (h : gmap loc estimator) (g : rng) (w : world) :
  __init__ data_frame h g = Ok w →
  ∃ svm perceptron,
    __clfs (self w) = [("SVM", svm); ("Perceptron", perceptron)] ∧
    svm ≠ perceptron ∧ h !! svm = None ∧ h !! perceptron = None ∧
    registry w
      = [("SVM", Some {| est_class := SGDClassifier; coef_ := None |});
         ("Perceptron",
          Some {| est_class := Perceptron; coef_ := None |})] ∧
    (∀ l, is_Some (h !! l) → heap w !! l = h !! l) ∧
    tokenizer (self w) = None ∧ lb_make (self w) = None.
Proof.
  intros Hinit.
  apply init_Ok_inv in Hinit
    as (ind_train & ind_test & g' & X_tr & X_te & _ & _ & _ & _ & _ & ->).
  set (svm := fresh (dom h)).
  set (h1 := <[svm := {| est_class := SGDClassifier; coef_ := None |}]> h).
  set (perceptron := fresh (dom h1)).
  assert (svm ∉ dom h) as Hsvm by apply is_fresh.
  assert (perceptron ∉ dom h1) as Hperc by apply is_fresh.
  unfold h1 in Hperc. rewrite dom_insert_L in Hperc.
  assert (svm ≠ perceptron) as Hne by set_solver.
  assert (perceptron ∉ dom h) as Hperc' by set_solver.
  apply not_elem_of_dom in Hsvm, Hperc'.
  exists svm, perceptron. simpl. split_and!; try done.
  - unfold registry, items. simpl.
    rewrite lookup_insert_ne by done. unfold h1.
    by rewrite !lookup_insert_eq.
  - intros l [est Hl]. unfold h1.
    rewrite !lookup_insert_ne; [done | congruence | congruence].
Qed.

Lemma init_registry_witness :
  ∃ svm perceptron,
    __clfs (self (ToyRun.start NaN))
      = [("SVM", svm); ("Perceptron", perceptron)] ∧
    svm ≠ perceptron.
Proof.
  destruct (init_registry (H := Toy.lib NaN) Toy.frame ∅ 0
              (ToyRun.start NaN) (toy_init_start NaN))
    as (svm & perceptron & Hclfs & Hne & _).
  by exists svm, perceptron.
Defined.

(** ** Failure and outcome of the steps *)

(** X9.  [__run_best_model] with a name that is not registered always
    raises and changes nothing: no classifier is refitted.  The lookup
    comes after the TF-IDF extraction, so an extraction error is raised
    first; when the extraction succeeds the error is [KeyError] for the
    name. *)
Theorem run_best_model_unregistered `{MLLib} (w : world)
    (best_params : dict pyval) (best_clf : string) :
  Py.get (__clfs (self w)) best_clf = None →
  (∃ e, __run_best_model best_params best_clf w = (Raise e, w)) ∧
  ∀ tf train_X test_X,
    tfidf_fit_transform
      {| stop_words :=
           default PNone (Py.get best_params "vect__stop_words") |}
      (text_col (train (self w))) = Ok (tf, train_X) →
    tfidf_transform tf (text_col (test (self w))) = Ok test_X →
    __run_best_model best_params best_clf w
    = (Raise (KeyError best_clf), w).
Proof.
  intros Hget.
  assert (∀ tf train_X test_X,
    tfidf_fit_transform
      {| stop_words :=
           default PNone (Py.get best_params "vect__stop_words") |}
      (text_col (train (self w))) = Ok (tf, train_X) →
    tfidf_transform tf (text_col (test (self w))) = Ok test_X →
    __run_best_model best_params best_clf w
    = (Raise (KeyError best_clf), w)) as Hkey.
  { intros tf train_X test_X Htf Htest. unfold __run_best_model.
    do 2 (erewrite bind_run by reflexivity; cbv beta).
    rewrite Htf. erewrite bind_run by reflexivity; cbv beta iota.
    rewrite Htest. do 2 (erewrite bind_run by reflexivity; cbv beta).
    unfold getitem. rewrite Hget. by erewrite bind_raise. }
  split; [|exact Hkey].
  destruct (tfidf_fit_transform
              {| stop_words :=
                   default PNone (Py.get best_params "vect__stop_words") |}
              (text_col (train (self w)))) as [[tf train_X]|e] eqn:Htf.
  - destruct (tfidf_transform tf (text_col (test (self w))))
      as [test_X|e] eqn:Htest.
    + eexists. by eapply Hkey.
    + exists e. unfold __run_best_model.
      do 2 (erewrite bind_run by reflexivity; cbv beta).
      rewrite Htf. erewrite bind_run by reflexivity; cbv beta iota.
      rewrite Htest. by erewrite bind_raise.
  - exists e. unfold __run_best_model.
    do 2 (erewrite bind_run by reflexivity; cbv beta).
    rewrite Htf. by erewrite bind_raise.
Qed.

Lemma run_best_model_unregistered_witness :
  ∃ e, __run_best_model [] "Bayes" (ToyRun.start NaN)
       = (Raise e, ToyRun.start NaN).
Proof.
  apply (run_best_model_unregistered (H := Toy.lib NaN) (ToyRun.start NaN)
           [] "Bayes").
  reflexivity.
Defined.

(** X10.  Whatever the cross-validation scores, a search that returns
    returns one of the two candidates of the grid and nothing else; so the
    parameters [train_models] passes on always carry the key
    [vect__stop_words], with [None] or ['english']. *)
Theorem optimize_returns_candidate `{MLLib} (best_func : loc) (w : world)
    (best_params : dict pyval) (w' : world) :
  optimize best_func w = (Ok best_params, w') →
  (best_params = [("vect__stop_words", PNone)] ∨
   best_params = [("vect__stop_words", PStr "english")]) ∧
  (Py.get best_params "vect__stop_words" = Some PNone ∨
   Py.get best_params "vect__stop_words" = Some (PStr "english")).
Proof.
  intros Hrun.
  assert (best_params = [("vect__stop_words", PNone)] ∨
          best_params = [("vect__stop_words", PStr "english")]) as Hcand.
  { unfold optimize in Hrun.
    erewrite bind_run in Hrun by reflexivity; cbv beta in Hrun.
    apply bind_Ok_inv in Hrun as (gs & w1 & Hgs & Hret).
    injection Hret as <- <-.
    unfold GridSearchCV_fit in Hgs.
    apply bind_Ok_inv in Hgs as (est & w2 & _ & Hgs).
    apply bind_Ok_inv in Hgs as (results & w3 & Hresults & Hgs).
    rewrite optimize_candidates in Hresults. cbn [mapM] in Hresults.
    apply bind_Ok_inv in Hresults as ([p1 s1] & w4 & Hc1 & Hresults).
    apply bind_Ok_inv in Hresults as (tail & w5 & Htail & Hresults).
    injection Hresults as <- <-.
    apply bind_Ok_inv in Htail as ([p2 s2] & w6 & Hc2 & Htail).
    apply bind_Ok_inv in Htail as (tail' & w7 & Hnil & Htail).
    injection Hnil as <- <-. injection Htail as <- <-.
    apply bind_Ok_inv in Hc1 as (v1 & w8 & _ & Hc1).
    apply bind_Ok_inv in Hc1 as (s1' & w9 & _ & Hc1).
    injection Hc1 as <- <- <-.
    apply bind_Ok_inv in Hc2 as (v2 & w10 & _ & Hc2).
    apply bind_Ok_inv in Hc2 as (s2' & w11 & _ & Hc2).
    injection Hc2 as <- <- <-.
    cbv beta iota in Hgs. cbn [sklearn.best_from snd fst] in Hgs.
    apply bind_Ok_inv in Hgs as (v & w12 & _ & Hgs).
    apply bind_Ok_inv in Hgs as ([tf X_all] & w13 & _ & Hgs).
    apply bind_Ok_inv in Hgs as (c & w14 & _ & Hgs).
    injection Hgs as <- <-. simpl.
    destruct (sklearn.better s2' s1'); simpl; auto. }
  split; [done|].
  destruct Hcand as [-> | ->]; [by left | by right].
Qed.

Lemma optimize_returns_candidate_witness :
  (ToyRun.english = [("vect__stop_words", PNone)] ∨
   ToyRun.english = [("vect__stop_words", PStr "english")]) ∧
  (Py.get ToyRun.english "vect__stop_words" = Some PNone ∨
   Py.get ToyRun.english "vect__stop_words" = Some (PStr "english")).
Proof.
  apply (optimize_returns_candidate (H := Toy.lib NaN) 0
           (ToyRun.benchmarked NaN) ToyRun.english (ToyRun.optimized NaN)).
  reflexivity.
Defined.

(** X11.  [build_matrix] sets the label encoder first and the tokenizer
    last.  So after any call, returning or raising, [self.lb_make] is the
    encoder fitted on the training labels; [self.tokenizer] is the
    tokenizer fitted on the training texts when the call returns, and is
    left as it was when the call raises.  The classifier objects and the
    random state are not touched. *)
Theorem build_matrix_effects `{MLLib} (w : world) :
  lb_make (self (build_matrix w).2)
    = Some (sklearn.LabelEncoder_fit (Y_train (self w))) ∧
  heap (build_matrix w).2 = heap w ∧
  np_random (build_matrix w).2 = np_random w ∧
  match (build_matrix w).1 with
  | Ok _ => tokenizer (self (build_matrix w).2) = Some (train_tokenizer w)
  | Raise _ => tokenizer (self (build_matrix w).2) = tokenizer (self w)
  end.
Proof.
  unfold build_matrix.
  repeat (erewrite bind_run by reflexivity; cbv beta zeta).
  cbn [self set_lb_make snd train test Y_train Y_test].
  change (fit_on_texts _ _) with (train_tokenizer w).
  destruct (texts_to_matrix (train_tokenizer w) (text_col (train (self w)))
              mode_count) as [x_train|e];
    [|erewrite bind_raise by reflexivity; by simpl].
  erewrite bind_run by reflexivity; cbv beta.
  destruct (texts_to_matrix (train_tokenizer w) (text_col (test (self w)))
              mode_count) as [x_test|e];
    [|erewrite bind_raise by reflexivity; by simpl].
  erewrite bind_run by reflexivity; cbv beta.
  destruct (sklearn.LabelEncoder_transform _ (Y_train (self w)))
    as [codes_train|e]; [|erewrite bind_raise by reflexivity; by simpl].
  repeat (erewrite bind_run by reflexivity; cbv beta zeta).
  cbn [self set_lb_make snd train test Y_train Y_test].
  destruct (sklearn.LabelEncoder_transform _ (Y_test (self w)))
    as [codes_test|e]; [|erewrite bind_raise by reflexivity; by simpl].
  erewrite bind_run by reflexivity; cbv beta.
  destruct (keras.to_categorical codes_train 3) as [y_train|e];
    [|erewrite bind_raise by reflexivity; by simpl].
  erewrite bind_run by reflexivity; cbv beta.
  destruct (keras.to_categorical codes_test 3) as [y_test|e];
    [|erewrite bind_raise by reflexivity; by simpl].
  repeat (erewrite bind_run by reflexivity; cbv beta zeta).
  by simpl.
Qed.

(** ** Label encoding *)

Lemma string_compare_refl (s : string) : String.compare s s = Eq.
Proof.
  induction s as [|c s IH]; simpl; [done|].
  unfold Ascii.compare. by rewrite N.compare_refl.
Qed.

Lemma string_compare_lt_trans (a b c : string) :
  String.compare a b = Lt → String.compare b c = Lt →
  String.compare a c = Lt.
Proof.
  revert b c. induction a as [|x a IH]; intros [|y b] [|z c]; simpl;
    try done.
  destruct (Ascii.compare x y) eqn:Hxy; [| |done];
    destruct (Ascii.compare y z) eqn:Hyz; try done.
  - apply Ascii.compare_eq_iff in Hxy, Hyz. subst.
    unfold Ascii.compare. rewrite N.compare_refl. apply IH.
  - apply Ascii.compare_eq_iff in Hxy. subst. by rewrite Hyz.
  - apply Ascii.compare_eq_iff in Hyz. subst. by rewrite Hxy.
  - intros _ _. unfold Ascii.compare in *.
    apply N.compare_lt_iff in Hxy, Hyz.
    enough (N.compare (Ascii.N_of_ascii x) (Ascii.N_of_ascii z) = Lt)
      as -> by done.
    apply N.compare_lt_iff. by etransitivity.
Qed.

Lemma string_compare_gt_lt (a b : string) :
  String.compare a b = Gt → String.compare b a = Lt.
Proof. intros Hgt. by rewrite String.compare_antisym, Hgt. Qed.

Lemma elem_of_insert_sorted s l x :
  x ∈ sklearn.insert_sorted s l ↔ x = s ∨ x ∈ l.
Proof.
  induction l as [|y l IH]; simpl.
  - rewrite list_elem_of_singleton, elem_of_nil. tauto.
  - destruct (String.compare s y) eqn:Hc.
    + apply String.compare_eq_iff in Hc. subst.
      rewrite elem_of_cons. tauto.
    + rewrite !elem_of_cons. tauto.
    + rewrite !elem_of_cons, IH. tauto.
Qed.

Lemma insert_sorted_sorted s l :
  StronglySorted (λ a b, String.compare a b = Lt) l →
  StronglySorted (λ a b, String.compare a b = Lt)
    (sklearn.insert_sorted s l).
Proof.
  induction 1 as [|y l Hsorted IH Hall]; simpl.
  - repeat constructor.
  - destruct (String.compare s y) eqn:Hc.
    + by constructor.
    + constructor; [by constructor|]. constructor; [done|].
      eapply Forall_impl; [exact Hall|]. intros z Hz.
      by eapply string_compare_lt_trans.
    + constructor; [done|]. apply Forall_forall. intros z Hz.
      apply elem_of_insert_sorted in Hz as [->|Hz].
      * by apply string_compare_gt_lt.
      * by eapply Forall_forall in Hall.
Qed.

Lemma np_unique_sorted labels :
  StronglySorted (λ a b, String.compare a b = Lt)
    (sklearn.np_unique labels).
Proof.
  unfold sklearn.np_unique. induction labels as [|s labels IH]; simpl.
  - constructor.
  - by apply insert_sorted_sorted.
Qed.

Lemma elem_of_np_unique labels s : s ∈ sklearn.np_unique labels ↔ s ∈ labels.
Proof.
  unfold sklearn.np_unique. induction labels as [|x labels IH]; simpl.
  - done.
  - rewrite elem_of_insert_sorted, IH, elem_of_cons. tauto.
Qed.

Lemma sorted_NoDup l :
  StronglySorted (λ a b, String.compare a b = Lt) l → NoDup l.
Proof.
  induction 1 as [|y l Hsorted IH Hall]; constructor; [|done].
  intros Hin. eapply Forall_forall in Hall; [|exact Hin].
  by rewrite string_compare_refl in Hall.
Qed.

Lemma np_unique_NoDup labels : NoDup (sklearn.np_unique labels).
Proof. apply sorted_NoDup, np_unique_sorted. Qed.

Lemma index_of_Some s l c :
  sklearn.index_of s l = Some c → l !! c = Some s.
Proof.
  revert c. induction l as [|x l IH]; intros c; simpl; [done|].
  destruct (decide (x = s)) as [->|Hne].
  - by intros [= <-].
  - destruct (sklearn.index_of s l) as [c'|]; simpl; [|done].
    intros [= <-]. simpl. by apply IH.
Qed.

Lemma index_of_elem s l : s ∈ l → is_Some (sklearn.index_of s l).
Proof.
  induction l as [|x l IH]; simpl.
  - intros Hin. by apply elem_of_nil in Hin.
  - intros Hin. destruct (decide (x = s)); [eauto|].
    apply elem_of_cons in Hin as [->|Hin]; [done|].
    destruct (IH Hin) as [c ->]. simpl. eauto.
Qed.

Lemma index_of_not_elem s l : s ∉ l → sklearn.index_of s l = None.
Proof.
  intros Hnot. destruct (sklearn.index_of s l) as [c|] eqn:Hc; [|done].
  apply index_of_Some in Hc. exfalso. apply Hnot.
  by eapply list_elem_of_lookup_2.
Qed.

Lemma index_of_lookup s l c :
  NoDup l → l !! c = Some s → sklearn.index_of s l = Some c.
Proof.
  intros Hnodup Hc.
  destruct (index_of_elem s l) as [c' Hc'];
    [by eapply list_elem_of_lookup_2|].
  rewrite Hc'. f_equal. apply index_of_Some in Hc'.
  by eapply NoDup_lookup.
Qed.

(** [transform]: every label known, or the first unknown label raises. *)
Lemma transform_known classes labels :
  Forall (λ s, s ∈ classes) labels →
  ∃ codes,
    sklearn.LabelEncoder_transform {| sklearn.classes_ := Some classes |}
      labels = Ok codes ∧
    Forall2 (λ s c, classes !! c = Some s) labels codes.
Proof.
  unfold sklearn.LabelEncoder_transform. simpl.
  induction 1 as [|s labels Hs _ (codes & Hcodes & Hall)].
  - by exists [].
  - destruct (index_of_elem s classes Hs) as [c Hc].
    exists (c :: codes). cbn. rewrite Hc. cbn. rewrite Hcodes. cbn.
    split; [done|]. constructor; [by apply index_of_Some | done].
Qed.

Lemma transform_unknown classes labels :
  ¬ Forall (λ s, s ∈ classes) labels →
  sklearn.LabelEncoder_transform {| sklearn.classes_ := Some classes |}
    labels = Raise ValueError.
Proof.
  unfold sklearn.LabelEncoder_transform. simpl.
  induction labels as [|s labels IH]; intros Hnot.
  - exfalso. apply Hnot. constructor.
  - cbn. destruct (decide (s ∈ classes)) as [Hs|Hs].
    + destruct (index_of_elem s classes Hs) as [c ->]. cbn.
      rewrite IH; [done|]. intros Hall. apply Hnot. by constructor.
    + by rewrite index_of_not_elem.
Qed.

Lemma to_categorical_overflow y num_classes :
  ¬ Forall (λ c, c < num_classes) y →
  keras.to_categorical y num_classes = Raise IndexError.
Proof.
  unfold keras.to_categorical.
  induction y as [|c y IH]; intros Hnot.
  - exfalso. apply Hnot. constructor.
  - cbn. destruct (decide (c < num_classes)) as [Hc|Hc]; [|done].
    cbn. rewrite IH; [done|]. intros Hall. apply Hnot. by constructor.
Qed.

Lemma transform_Ok_inv (classes labels : list string) codes :
  sklearn.LabelEncoder_transform {| sklearn.classes_ := Some classes |}
    labels = Ok codes →
  Forall (λ s, s ∈ classes) labels ∧
  Forall2 (λ s c, classes !! c = Some s) labels codes.
Proof.
  intros Hrun.
  destruct (decide (Forall (λ s, s ∈ classes) labels)) as [Hall|Hnot].
  - destruct (transform_known classes labels Hall) as (codes' & Hrun' & H2).
    rewrite Hrun in Hrun'. by injection Hrun' as <-.
  - by rewrite transform_unknown in Hrun.
Qed.

Lemma to_categorical_Ok_inv y num_classes y_matrix :
  keras.to_categorical y num_classes = Ok y_matrix →
  Forall (λ c, c < num_classes) y ∧
  y_matrix = keras.one_hot num_classes <$> y.
Proof.
  intros Hrun.
  destruct (decide (Forall (λ c, c < num_classes) y)) as [Hall|Hnot].
  - rewrite to_categorical_run in Hrun by done. by injection Hrun as <-.
  - by rewrite to_categorical_overflow in Hrun.
Qed.

(** As many codes in use as there are classes. *)
Lemma codes_bound (classes labels : list string) (codes : list nat) n :
  NoDup classes →
  (∀ s, s ∈ classes → s ∈ labels) →
  Forall2 (λ s c, classes !! c = Some s) labels codes →
  Forall (λ c, c < n) codes →
  length classes ≤ n.
Proof.
  intros Hnodup Hsub Hcodes Hbound.
  destruct (decide (length classes ≤ n)) as [|Hgt]; [done|]. exfalso.
  destruct (lookup_lt_is_Some_2 classes n) as [s Hs]; [lia|].
  assert (s ∈ labels) as Hin.
  { apply Hsub. by eapply list_elem_of_lookup_2. }
  apply list_elem_of_lookup in Hin as [i Hi].
  destruct (Forall2_lookup_l _ _ _ _ _ Hcodes Hi) as (c & Hc & Hcs).
  assert (c = n) as -> by (by eapply NoDup_lookup).
  eapply Forall_lookup_1 in Hbound; [|exact Hc]. lia.
Qed.

Section encoding.
Context `{MLLib}.

(** What a [build_matrix] that returns has computed. *)
Lemma build_matrix_Ok_inv w x_train x_test y_train y_test w' :
  build_matrix w = (Ok (x_train, x_test, y_train, y_test), w') →
  ∃ codes_train codes_test,
    texts_to_matrix (train_tokenizer w) (text_col (train (self w)))
      mode_count = Ok x_train ∧
    texts_to_matrix (train_tokenizer w) (text_col (test (self w)))
      mode_count = Ok x_test ∧
    sklearn.LabelEncoder_transform
      (sklearn.LabelEncoder_fit (Y_train (self w))) (Y_train (self w))
      = Ok codes_train ∧
    sklearn.LabelEncoder_transform
      (sklearn.LabelEncoder_fit (Y_train (self w))) (Y_test (self w))
      = Ok codes_test ∧
    keras.to_categorical codes_train 3 = Ok y_train ∧
    keras.to_categorical codes_test 3 = Ok y_test.
Proof.
  unfold build_matrix.
  repeat (erewrite bind_run by reflexivity; cbv beta zeta).
  cbn [self set_lb_make snd train test Y_train Y_test].
  change (fit_on_texts _ _) with (train_tokenizer w).
  destruct (texts_to_matrix (train_tokenizer w) (text_col (train (self w)))
              mode_count) as [xtr|e];
    [|by erewrite bind_raise by reflexivity].
  erewrite bind_run by reflexivity; cbv beta.
  destruct (texts_to_matrix (train_tokenizer w) (text_col (test (self w)))
              mode_count) as [xte|e];
    [|by erewrite bind_raise by reflexivity].
  erewrite bind_run by reflexivity; cbv beta.
  destruct (sklearn.LabelEncoder_transform _ (Y_train (self w)))
    as [codes_train|e]; [|by erewrite bind_raise by reflexivity].
  repeat (erewrite bind_run by reflexivity; cbv beta zeta).
  cbn [self set_lb_make snd train test Y_train Y_test].
  destruct (sklearn.LabelEncoder_transform _ (Y_test (self w)))
    as [codes_test|e]; [|by erewrite bind_raise by reflexivity].
  erewrite bind_run by reflexivity; cbv beta.
  destruct (keras.to_categorical codes_train 3) as [ytr|e] eqn:Hytr;
    [|by erewrite bind_raise by reflexivity].
  erewrite bind_run by reflexivity; cbv beta.
  destruct (keras.to_categorical codes_test 3) as [yte|e] eqn:Hyte;
    [|by erewrite bind_raise by reflexivity].
  repeat (erewrite bind_run by reflexivity; cbv beta zeta).
  unfold mret, M_ret. intros [= <- <- <- <- _].
  by exists codes_train, codes_test.
Qed.

(** The outcome of [build_matrix] once the two count matrices are built:
    that of the label encoding. *)
Lemma build_matrix_labels_run w x_train x_test :
  texts_to_matrix (train_tokenizer w) (text_col (train (self w)))
    mode_count = Ok x_train →
  texts_to_matrix (train_tokenizer w) (text_col (test (self w)))
    mode_count = Ok x_test →
  (build_matrix w).1
  = (codes_train ← sklearn.LabelEncoder_transform
       (sklearn.LabelEncoder_fit (Y_train (self w))) (Y_train (self w));
     codes_test ← sklearn.LabelEncoder_transform
       (sklearn.LabelEncoder_fit (Y_train (self w))) (Y_test (self w));
     y_train ← keras.to_categorical codes_train 3;
     y_test ← keras.to_categorical codes_test 3;
     Ok (x_train, x_test, y_train, y_test)).
Proof.
  intros Hxtrain Hxtest. unfold build_matrix.
  repeat (erewrite bind_run by reflexivity; cbv beta zeta).
  cbn [self set_lb_make snd train test Y_train Y_test].
  change (fit_on_texts _ _) with (train_tokenizer w).
  rewrite Hxtrain, Hxtest.
  repeat (erewrite bind_run by reflexivity; cbv beta zeta).
  destruct (sklearn.LabelEncoder_transform _ (Y_train (self w)))
    as [codes_train|e]; [|erewrite bind_raise by reflexivity; reflexivity].
  repeat (erewrite bind_run by reflexivity; cbv beta zeta).
  cbn [self set_lb_make snd train test Y_train Y_test].
  destruct (sklearn.LabelEncoder_transform _ (Y_test (self w)))
    as [codes_test|e]; [|erewrite bind_raise by reflexivity; reflexivity].
  erewrite bind_run by reflexivity; cbv beta.
  destruct (keras.to_categorical codes_train 3) as [ytr|e] eqn:Hytr;
    [|erewrite bind_raise by reflexivity; cbn [mbind result_bind fst];
      by rewrite Hytr].
  erewrite bind_run by reflexivity; cbv beta.
  destruct (keras.to_categorical codes_test 3) as [yte|e] eqn:Hyte;
    [|erewrite bind_raise by reflexivity; cbn [mbind result_bind fst];
      by rewrite Hytr, Hyte].
  repeat (erewrite bind_run by reflexivity; cbv beta zeta).
  cbn [mbind result_bind fst]. by rewrite Hytr, Hyte.
Qed.

End encoding.

Section label_outcomes.
Context `{MLLib}.

Lemma fit_classes labels :
  sklearn.LabelEncoder_fit labels
  = {| sklearn.classes_ := Some (sklearn.np_unique labels) |}.
Proof. done. Qed.

Lemma transform_train labels :
  ∃ codes,
    sklearn.LabelEncoder_transform (sklearn.LabelEncoder_fit labels) labels
      = Ok codes ∧
    Forall2 (λ s c, sklearn.np_unique labels !! c = Some s) labels codes.
Proof.
  rewrite fit_classes. apply transform_known.
  apply Forall_forall. intros s Hs. by apply elem_of_np_unique.
Qed.

End label_outcomes.

(** X12.  When [build_matrix] returns, the label matrices encode the
    gender labels faithfully.  There is a list of classes, the distinct
    training labels in increasing order, at most three of them; every
    training row and every test row is the one-hot row of width 3 whose hot
    position is the position of the row's gender in that list.  So two rows
    get the same encoding exactly when they carry the same label. *)
Theorem build_matrix_labels `{MLLib} (w : world) (x_train x_test : ndarray)
    (y_train y_test : list (list Q)) (w' : world) :
  build_matrix w = (Ok (x_train, x_test, y_train, y_test), w') →
  ∃ classes : list string,
    StronglySorted (λ a b, String.compare a b = Lt) classes ∧
    NoDup classes ∧
    (∀ s, s ∈ classes ↔ s ∈ Y_train (self w)) ∧
    length classes ≤ 3 ∧
    Forall2 (λ s row, ∃ c, classes !! c = Some s ∧ row = keras.one_hot 3 c)
      (Y_train (self w)) y_train ∧
    Forall2 (λ s row, ∃ c, classes !! c = Some s ∧ row = keras.one_hot 3 c)
      (Y_test (self w)) y_test.
Proof.
  intros Hrun.
  apply build_matrix_Ok_inv in Hrun
    as (codes_train & codes_test & _ & _ & Htrain & Htest & Hytrain
        & Hytest).
  rewrite fit_classes in Htrain, Htest.
  apply transform_Ok_inv in Htrain as [_ Htrain].
  apply transform_Ok_inv in Htest as [_ Htest].
  apply to_categorical_Ok_inv in Hytrain as [Hbtrain ->].
  apply to_categorical_Ok_inv in Hytest as [Hbtest ->].
  exists (sklearn.np_unique (Y_train (self w))).
  split_and!.
  - apply np_unique_sorted.
  - apply np_unique_NoDup.
  - intros s. apply elem_of_np_unique.
  - apply (codes_bound _ (Y_train (self w)) codes_train).
    + apply np_unique_NoDup.
    + intros s Hs. exact (proj1 (elem_of_np_unique _ _) Hs).
    + exact Htrain.
    + exact Hbtrain.
  - apply Forall2_fmap_r. eapply Forall2_impl; [exact Htrain|].
    intros s c Hc. by exists c.
  - apply Forall2_fmap_r. eapply Forall2_impl; [exact Htest|].
    intros s c Hc. by exists c.
Qed.

Lemma build_matrix_labels_witness :
  ∃ classes : list string,
    StronglySorted (λ a b, String.compare a b = Lt) classes ∧
    NoDup classes ∧
    (∀ s, s ∈ classes ↔ s ∈ Y_train (self (ToyRun.start NaN))) ∧
    length classes ≤ 3 ∧
    Forall2 (λ s row, ∃ c, classes !! c = Some s ∧ row = keras.one_hot 3 c)
      (Y_train (self (ToyRun.start NaN)))
      (keras.one_hot 3 <$> [1; 2; 1; 0]) ∧
    Forall2 (λ s row, ∃ c, classes !! c = Some s ∧ row = keras.one_hot 3 c)
      (Y_test (self (ToyRun.start NaN))) (keras.one_hot 3 <$> [2]).
Proof.
  apply (build_matrix_labels (H := Toy.lib NaN) (ToyRun.start NaN)
           ["bar"; "foo"; "bar"; "baz"] ["foo"]
           (keras.one_hot 3 <$> [1; 2; 1; 0]) (keras.one_hot 3 <$> [2])
           (build_matrix (ToyRun.start NaN)).2).
  reflexivity.
Defined.

(** X13.  Only three label classes fit: when four or more distinct gender
    labels occur in the training partition (and the count matrices are
    built and every test label also occurs in training), [build_matrix]
    raises [IndexError] from [to_categorical(., 3)]. *)
Theorem build_matrix_too_many_labels `{MLLib} (w : world)
    (x_train x_test : ndarray) (distinct : list string) :
  texts_to_matrix (train_tokenizer w) (text_col (train (self w)))
    mode_count = Ok x_train →
  texts_to_matrix (train_tokenizer w) (text_col (test (self w)))
    mode_count = Ok x_test →
  Forall (λ s, s ∈ Y_train (self w)) (Y_test (self w)) →
  NoDup distinct →
  Forall (λ s, s ∈ Y_train (self w)) distinct →
  3 < length distinct →
  (build_matrix w).1 = Raise IndexError.
Proof.
  intros Hxtrain Hxtest Hseen Hnodup Hsub Hmany.
  rewrite (build_matrix_labels_run w x_train x_test) by done.
  destruct (transform_train (Y_train (self w))) as (codes & -> & Hcodes).
  cbn [mbind result_bind].
  rewrite fit_classes.
  destruct (transform_known (sklearn.np_unique (Y_train (self w)))
              (Y_test (self w))) as (codes_test & -> & _).
  { eapply Forall_impl; [exact Hseen|]. intros s Hs.
    by apply elem_of_np_unique. }
  cbn [mbind result_bind].
  rewrite (to_categorical_overflow codes 3); [reflexivity|].
  intros Hbound.
  assert (length (sklearn.np_unique (Y_train (self w))) ≤ 3) as Hle.
  { apply (codes_bound _ (Y_train (self w)) codes).
    - apply np_unique_NoDup.
    - intros s Hs. exact (proj1 (elem_of_np_unique _ _) Hs).
    - exact Hcodes.
    - exact Hbound. }
  assert (distinct ⊆+ sklearn.np_unique (Y_train (self w))) as Hsubm.
  { apply NoDup_submseteq; [done|]. intros s Hs.
    apply elem_of_np_unique. by eapply Forall_forall in Hsub. }
  apply submseteq_length in Hsubm. lia.
Qed.

Lemma build_matrix_too_many_labels_witness :
  ∃ w, __init__ (H := Toy.lib NaN) ToyLabels.four_labels ∅ 0 = Ok w ∧
       (build_matrix w).1 = Raise IndexError.
Proof.
  eexists. split; [by vm_compute|].
  apply (build_matrix_too_many_labels (H := Toy.lib NaN) _
           ["bar"; "foo"; "baz"; "qux"] ["foo"]
           ["female"; "male"; "brand"; "unknown"]).
  - reflexivity.
  - reflexivity.
  - apply (bool_decide_unpack _). by vm_compute.
  - apply (bool_decide_unpack _). by vm_compute.
  - apply (bool_decide_unpack _). by vm_compute.
  - simpl. lia.
Defined.

(** X14.  A gender label that occurs in the test partition but not in the
    training partition cannot be encoded: once the count matrices are
    built, [build_matrix] raises [ValueError]. *)
Theorem build_matrix_unseen_label `{MLLib} (w : world)
    (x_train x_test : ndarray) (label : string) :
  texts_to_matrix (train_tokenizer w) (text_col (train (self w)))
    mode_count = Ok x_train →
  texts_to_matrix (train_tokenizer w) (text_col (test (self w)))
    mode_count = Ok x_test →
  label ∈ Y_test (self w) →
  label ∉ Y_train (self w) →
  (build_matrix w).1 = Raise ValueError.
Proof.
  intros Hxtrain Hxtest Hin Hnot.
  rewrite (build_matrix_labels_run w x_train x_test) by done.
  destruct (transform_train (Y_train (self w))) as (codes & -> & Hcodes).
  cbn [mbind result_bind].
  rewrite fit_classes, transform_unknown; [reflexivity|].
  intros Hall. eapply Forall_forall in Hall; [|exact Hin].
  exact (Hnot (proj1 (elem_of_np_unique _ _) Hall)).
Qed.

Lemma build_matrix_unseen_label_witness :
  ∃ w, __init__ (H := Toy.lib NaN) ToyLabels.unseen_label ∅ 0 = Ok w ∧
       (build_matrix w).1 = Raise ValueError.
Proof.
  eexists. split; [by vm_compute|].
  apply (build_matrix_unseen_label (H := Toy.lib NaN) _
           ["bar"; "foo"; "bar"; "baz"] ["qux"] "unknown").
  - reflexivity.
  - reflexivity.
  - apply (bool_decide_unpack _). by vm_compute.
  - apply (bool_decide_unpack _). by vm_compute.
Defined.

(** X15.  Conversely, when every training label is one of three values and
    every test label occurs in training, the label encoding cannot fail:
    once the count matrices are built, [build_matrix] returns them with
    label matrices of width 3, one row per data row. *)
Theorem build_matrix_returns `{MLLib} (w : world)
    (x_train x_test : ndarray) (a b c : string) :
  texts_to_matrix (train_tokenizer w) (text_col (train (self w)))
    mode_count = Ok x_train →
  texts_to_matrix (train_tokenizer w) (text_col (test (self w)))
    mode_count = Ok x_test →
  Forall (λ s, s ∈ [a; b; c]) (Y_train (self w)) →
  Forall (λ s, s ∈ Y_train (self w)) (Y_test (self w)) →
  ∃ y_train y_test,
    (build_matrix w).1 = Ok (x_train, x_test, y_train, y_test) ∧
    length y_train = length (Y_train (self w)) ∧
    length y_test = length (Y_test (self w)) ∧
    Forall (λ row, length row = 3) (y_train ++ y_test).
Proof.
  intros Hxtrain Hxtest Hthree Hseen.
  rewrite (build_matrix_labels_run w x_train x_test) by done.
  destruct (transform_train (Y_train (self w)))
    as (codes_train & -> & Htrain).
  cbn [mbind result_bind]. rewrite fit_classes.
  destruct (transform_known (sklearn.np_unique (Y_train (self w)))
              (Y_test (self w))) as (codes_test & -> & Htest).
  { eapply Forall_impl; [exact Hseen|]. intros s Hs.
    by apply elem_of_np_unique. }
  cbn [mbind result_bind].
  assert (length (sklearn.np_unique (Y_train (self w))) ≤ 3) as Hle.
  { change 3 with (length [a; b; c]). apply submseteq_length.
    apply NoDup_submseteq; [apply np_unique_NoDup|]. intros s Hs.
    apply (proj1 (elem_of_np_unique _ _)) in Hs.
    eapply Forall_forall in Hthree; [exact Hthree | exact Hs]. }
  assert (∀ labels codes,
    Forall2 (λ s c, sklearn.np_unique (Y_train (self w)) !! c = Some s)
      labels codes → Forall (λ c, c < 3) codes) as Hbound.
  { intros labels codes Hall. induction Hall as [|s k ? ? Hk _ IH];
      constructor; [|done].
    apply lookup_lt_Some in Hk. lia. }
  rewrite !to_categorical_run by eauto. cbn [mbind result_bind].
  eexists _, _. split_and!; [reflexivity | | |].
  - rewrite length_fmap. symmetry. by eapply Forall2_length.
  - rewrite length_fmap. symmetry. by eapply Forall2_length.
  - apply Forall_app. split; apply Forall_fmap, Forall_forall;
      intros k _; apply one_hot_length.
Qed.

Lemma build_matrix_returns_witness :
  ∃ y_train y_test,
    (build_matrix (ToyRun.start NaN)).1
      = Ok (["bar"; "foo"; "bar"; "baz"], ["foo"], y_train, y_test) ∧
    length y_train = length (Y_train (self (ToyRun.start NaN))) ∧
    length y_test = length (Y_test (self (ToyRun.start NaN))) ∧
    Forall (λ row, length row = 3) (y_train ++ y_test).
Proof.
  apply (build_matrix_returns (H := Toy.lib NaN) (ToyRun.start NaN)
           ["bar"; "foo"; "bar"; "baz"] ["foo"] "female" "male" "brand").
  - reflexivity.
  - reflexivity.
  - apply (bool_decide_unpack _). by vm_compute.
  - apply (bool_decide_unpack _). by vm_compute.
Defined.

(** ** Trained models *)

Section trained.
Context `{MLLib}.

Global Instance stays_fitted_preorder : PreOrder stays_fitted.
Proof.
  split.
  - intros w l est Hl Hfit. by exists est.
  - intros w1 w2 w3 H12 H23 l est Hl Hfit.
    destruct (H12 l est Hl Hfit) as (est2 & Hl2 & Hfit2).
    by apply (H23 l est2).
Qed.

Lemma same_heap_stays_fitted w w' : same_heap w w' → stays_fitted w w'.
Proof. intros Hh l est Hl Hfit. exists est. by rewrite Hh. Qed.

Lemma random_stays_fitted {A} (op : rng → result A * rng) :
  keeps stays_fitted (random op).
Proof.
  eapply keeps_weaken; [apply same_heap_stays_fitted|].
  apply random_same_heap.
Qed.

Lemma set_lb_make_stays_fitted v : keeps stays_fitted (set_lb_make v).
Proof.
  eapply keeps_weaken; [apply same_heap_stays_fitted|].
  apply set_lb_make_same_heap.
Qed.

Lemma set_tokenizer_stays_fitted v : keeps stays_fitted (set_tokenizer v).
Proof.
  eapply keeps_weaken; [apply same_heap_stays_fitted|].
  apply set_tokenizer_same_heap.
Qed.

Lemma fit_stays_fitted clf X y : keeps stays_fitted (fit clf X y).
Proof.
  intros w l est Hl Hfit. rewrite fit_run.
  destruct (heap w !! clf) as [est0|] eqn:Hclf; [|by exists est].
  destruct (clf_fit _ _ _ _) as [[c|e] g]; simpl; [|by exists est].
  destruct (decide (l = clf)) as [->|Hne].
  - rewrite lookup_insert_eq. eexists; split; [done|]. by eexists.
  - rewrite lookup_insert_ne by done. by exists est.
Qed.

End trained.

#[global] Hint Resolve random_stays_fitted set_lb_make_stays_fitted
  set_tokenizer_stays_fitted fit_stays_fitted : frame.

Section trained_methods.
Context `{MLLib}.

Lemma benchmark_stays_fitted clf : keeps stays_fitted (__benchmark clf).
Proof. unfold __benchmark. frame. Qed.

Lemma optimize_stays_fitted best_func :
  keeps stays_fitted (optimize best_func).
Proof.
  eapply keeps_weaken; [apply same_heap_stays_fitted|].
  apply optimize_same_heap.
Qed.

Lemma run_best_model_stays_fitted best_params best_clf :
  keeps stays_fitted (__run_best_model best_params best_clf).
Proof. unfold __run_best_model. frame. Qed.

Lemma train_sequential_stays_fitted : keeps stays_fitted train_sequential.
Proof.
  eapply keeps_weaken; [apply same_heap_stays_fitted|].
  apply train_sequential_same_heap.
Qed.

Lemma benchmark_all_stays_fitted registry scores :
  keeps stays_fitted (benchmark_all registry scores).
Proof.
  revert scores. induction registry as [|[name clf] registry IH];
    intros scores; simpl.
  - apply keeps_ret, _.
  - apply keeps_bind; [apply _ | apply benchmark_stays_fitted | done].
Qed.

(** When the loop returns, every classifier it was given is fitted. *)
Lemma benchmark_all_fits registry : ∀ scores0 w scores w1,
  benchmark_all registry scores0 w = (Ok scores, w1) →
  ∀ name l, (name, l) ∈ registry →
    ∃ est, heap w1 !! l = Some est ∧ is_fitted est.
Proof.
  induction registry as [|[name0 clf] registry IH];
    intros scores0 w scores w1 Hrun name l Hin; simpl in Hrun.
  - by apply elem_of_nil in Hin.
  - apply bind_Ok_inv in Hrun as (score & w0 & Hb & Hrun).
    apply elem_of_cons in Hin as [[= -> ->]|Hin]; [|by eapply IH].
    apply benchmark_Ok_inv in Hb as (est & c & g & pred & _ & _ & _ & _ & ->).
    pose proof (benchmark_all_stays_fitted registry
                  (setitem scores0 name0 score)) as Hkeep.
    match type of Hrun with
    | _ ?w0 = _ => specialize (Hkeep w0); rewrite Hrun in Hkeep;
                   apply (Hkeep clf {| est_class := est_class est;
                                       coef_ := Some c |})
    end.
    + simpl. by rewrite lookup_insert_eq.
    + by eexists.
Qed.

(** What a [train_models] that returns has gone through. *)
Lemma train_models_Ok_inv w returned w4 :
  train_models w = (Ok returned, w4) →
  ∃ scores w1 best best_func best_params w2 simple_score simple_model w3
    keras_model keras_score,
    benchmark_all (items (__clfs (self w))) [] w = (Ok scores, w1) ∧
    __get_best_score scores = Ok best ∧
    getitem (__clfs (self w1)) best = Ok best_func ∧
    optimize best_func w1 = (Ok best_params, w2) ∧
    __run_best_model best_params best w2
      = (Ok (simple_score, simple_model), w3) ∧
    train_sequential w3 = (Ok (keras_model, keras_score), w4) ∧
    returned = (if float_ge keras_score simple_score
                then KerasModel keras_model
                else ClassicalModel simple_model).
Proof.
  unfold train_models. erewrite bind_run by reflexivity; cbv beta.
  intros Hrun. apply bind_Ok_inv in Hrun as (scores & w1 & Hscores & Hrun).
  destruct (__get_best_score scores) as [best|e] eqn:Hbest;
    [|by erewrite bind_raise in Hrun by reflexivity].
  do 2 (erewrite bind_run in Hrun by reflexivity; cbv beta in Hrun).
  destruct (getitem (__clfs (self w1)) best) as [best_func|e] eqn:Hfunc;
    [|by erewrite bind_raise in Hrun by reflexivity].
  erewrite bind_run in Hrun by reflexivity; cbv beta in Hrun.
  apply bind_Ok_inv in Hrun as (best_params & w2 & Hopt & Hrun).
  apply bind_Ok_inv in Hrun as ([ss sm] & w3 & Hrefit & Hrun).
  apply bind_Ok_inv in Hrun as ([km ks] & w4' & Hnet & Hrun).
  exists scores, w1, best, best_func, best_params, w2, ss, sm, w3, km, ks.
  destruct (float_ge ks ss); injection Hrun as <- <-; by split_and!.
Qed.

(** The network a [train_sequential] that returns hands back. *)
Lemma train_sequential_Ok_inv w net score w' :
  train_sequential w = (Ok (net, score), w') →
  keras.layers net = network_layers ∧
  keras.loss net = Some "binary_crossentropy" ∧
  keras.optimizer net = Some "adam" ∧
  keras.metrics net = [accuracy] ∧
  is_Some (keras.weights net).
Proof.
  unfold train_sequential. intros Hrun.
  apply bind_Ok_inv in Hrun as ([[[xtr xte] ytr] yte] & w1 & _ & Hrun).
  cbv beta iota zeta in Hrun.
  apply bind_Ok_inv in Hrun as (model & w2 & Hfit & Hrun).
  apply bind_Ok_inv in Hrun as (keras_score & w3 & _ & Hrun).
  apply bind_Ok_inv in Hrun as (acc & w4 & _ & Hrun).
  injection Hrun as <- <- <-.
  unfold Sequential_fit in Hfit.
  cbn [compile add keras.loss keras.optimizer keras.layers keras.metrics
       keras.weights Sequential_new app] in Hfit.
  apply bind_Ok_inv in Hfit as (wts & w5 & _ & Hfit).
  injection Hfit as <- <-. simpl. split_and!; eauto.
Qed.

End trained_methods.

Section trained_driver.
Context `{MLLib}.

Lemma keeps_run (R : relation world) {A} (m : M A) w r w' :
  keeps R m → m w = (r, w') → R w w'.
Proof. intros Hk Hrun. specialize (Hk w). by rewrite Hrun in Hk. Qed.

Lemma same_data_clfs w w' : same_data w w' → __clfs (self w') = __clfs (self w).
Proof.
  unfold same_data, fixed_attributes. intros Hd.
  by injection Hd as _ _ _ -> _ _ _ _.
Qed.

End trained_driver.

(** X16.  A [train_models] that returns hands back a trained model.  A
    classical model is a reference held by the registry, and the object it
    refers to is fitted in the final store; a network has the three Dense
    layers, is compiled with binary cross-entropy and adam, and carries
    fitted weights. *)
Theorem train_models_returns_trained `{MLLib} (w : world) returned w' :
  train_models w = (Ok returned, w') →
  match returned with
  | ClassicalModel l =>
      (∃ name, getitem (__clfs (self w)) name = Ok l) ∧
      ∃ est, heap w' !! l = Some est ∧ is_fitted est
  | KerasModel net =>
      keras.layers net = network_layers ∧
      keras.loss net = Some "binary_crossentropy" ∧
      keras.optimizer net = Some "adam" ∧
      is_Some (keras.weights net)
  end.
Proof.
  intros Hrun.
  apply train_models_Ok_inv in Hrun
    as (scores & w1 & best & best_func & best_params & w2 & ss & sm & w3
        & km & ks & Hscores & Hbest & Hfunc & Hopt & Hrefit & Hnet & ->).
  destruct (float_ge ks ss).
  - apply train_sequential_Ok_inv in Hnet as (? & ? & ? & _ & ?).
    by split_and!.
  - pose proof (keeps_run _ _ _ _ _
                  (benchmark_all_same_data _ _) Hscores) as Hd1.
    pose proof (keeps_run _ _ _ _ _ (optimize_same_data _) Hopt) as Hd2.
    apply same_data_clfs in Hd1, Hd2.
    apply run_best_model_Ok_inv in Hrefit
      as (est & tf & train_X & test_X & c & g & pred & Hget & Hest & _ & _
          & _ & _ & _ & ->).
    split.
    + exists best. by rewrite <- Hd1, <- Hd2.
    + eapply (keeps_run _ _ _ _ _ train_sequential_stays_fitted Hnet).
      * simpl. apply lookup_insert_eq.
      * by eexists.
Qed.

Lemma train_models_returns_trained_witness :
  (∃ name, getitem (__clfs (self (ToyRun.start (Fin (1 # 2))))) name = Ok 0) ∧
  ∃ est, heap (ToyRun.trained (Fin (1 # 2))) !! 0 = Some est ∧ is_fitted est.
Proof.
  apply (train_models_returns_trained (H := Toy.lib (Fin (1 # 2)))
           (ToyRun.start (Fin (1 # 2))) (ClassicalModel 0)
           (ToyRun.trained (Fin (1 # 2)))).
  reflexivity.
Defined.

(** X17.  When [train_models] returns, every classifier of the registry
    has been fitted: the benchmark loop fits each of them in place, and no
    later step of the driver leaves a fitted object unfitted. *)
Theorem train_models_fits_registry `{MLLib} (w : world) returned w' :
  train_models w = (Ok returned, w') →
  ∀ name l, (name, l) ∈ items (__clfs (self w)) →
    ∃ est, heap w' !! l = Some est ∧ is_fitted est.
Proof.
  intros Hrun name l Hin.
  apply train_models_Ok_inv in Hrun
    as (scores & w1 & best & best_func & best_params & w2 & ss & sm & w3
        & km & ks & Hscores & Hbest & Hfunc & Hopt & Hrefit & Hnet & _).
  destruct (benchmark_all_fits _ _ _ _ _ Hscores name l Hin)
    as (est1 & Hl1 & Hfit1).
  destruct (keeps_run _ _ _ _ _ (optimize_stays_fitted _) Hopt
              l est1 Hl1 Hfit1) as (est2 & Hl2 & Hfit2).
  destruct (keeps_run _ _ _ _ _ (run_best_model_stays_fitted _ _) Hrefit
              l est2 Hl2 Hfit2) as (est3 & Hl3 & Hfit3).
  exact (keeps_run _ _ _ _ _ train_sequential_stays_fitted Hnet
           l est3 Hl3 Hfit3).
Qed.

Lemma train_models_fits_registry_witness :
  ∃ est, heap (ToyRun.trained (Fin 1)) !! 1 = Some est ∧ is_fitted est.
Proof.
  apply (train_models_fits_registry (H := Toy.lib (Fin 1))
           (ToyRun.start (Fin 1)) (KerasModel (ToyRun.network (Fin 1)))
           (ToyRun.trained (Fin 1)) eq_refl "Perceptron" 1).
  apply (bool_decide_unpack _). reflexivity.
Defined.
